(** * Isotope production dashboard: the data pipeline of [app.py]

    The script reads a table of per-country isotope production, cleans it,
    filters it by a production threshold and a country selection, and
    derives the tables that the charts consume.  This file embeds that
    pipeline and proves properties of it.

    Conventions of the embedding:
    - a DataFrame is the list of its rows, a column operation is a [map]
      over the rows;
    - a float64 is NaN, one of the two infinities or a rational; rounding
      is not modelled: the pipeline compares productions and cuts the
      fraction off the largest, and does no other arithmetic with them;
    - a Python [str] is a [string] of 8-bit characters (ASCII text);
    - what the script takes from its libraries without fixing it is kept
      as a parameter: how pandas reads a number out of text
      ([str_to_float]), whether pandas runs with copy-on-write
      ([copy_on_write], the rule from pandas 3 on) and which algorithms
      [sort_values] and [value_counts] sort with ([SortKind]). *)

From Stdlib Require Import Ascii String QArith Qminmax Qabs Lqa.
From stdpp Require Import base list strings gmap sorting.

Local Open Scope string_scope.
Local Open Scope Q_scope.

(** ** Python string methods used by the script *)

Module PyStr.

(** [str.isspace] on one ASCII character. *)
Definition isspace (c : ascii) : bool :=
  match c with
  | "009" | "010" | "011" | "012" | "013"
  | "028" | "029" | "030" | "031" | " " => true
  | _ => false
  end%char.

Fixpoint lstrip (s : string) : string :=
  match s with
  | String c rest => if isspace c then lstrip rest else s
  | EmptyString => EmptyString
  end.

Fixpoint rstrip (s : string) : string :=
  match s with
  | EmptyString => EmptyString
  | String c rest =>
      match rstrip rest with
      | EmptyString => if isspace c then EmptyString else String c EmptyString
      | kept => String c kept
      end
  end.

(** [s.strip()]: whitespace removed at both ends. *)
Definition strip (s : string) : string := rstrip (lstrip s).

(** [s.split(sep)] for a one-character separator: every separator ends a
    segment, so the result is never empty and may hold empty segments. *)
Fixpoint split (sep : ascii) (s : string) : list string :=
  match s with
  | EmptyString => [EmptyString]
  | String c rest =>
      if decide (c = sep) then EmptyString :: split sep rest
      else match split sep rest with
           | seg :: segs => String c seg :: segs
           | [] => [String c EmptyString]
           end
  end.

(** [sep.join(parts)], the inverse of [split]. *)
Fixpoint join (sep : ascii) (parts : list string) : string :=
  match parts with
  | [] => EmptyString
  | [p] => p
  | p :: rest => p +:+ String sep (join sep rest)
  end.

(** Number of occurrences of a character, [s.count(c)]. *)
Fixpoint count (c : ascii) (s : string) : nat :=
  match s with
  | EmptyString => 0
  | String d rest => (if decide (d = c) then 1 else 0) + count c rest
  end.

Definition first (s : string) : option ascii :=
  match s with String c _ => Some c | EmptyString => None end.

Fixpoint last (s : string) : option ascii :=
  match s with
  | EmptyString => None
  | String c EmptyString => Some c
  | String _ rest => last rest
  end.

End PyStr.

(** ** Floats *)

(** A float64 value: NaN, plus or minus infinity, or a finite number. *)
Inductive float64 : Type :=
  | nan
  | pinf
  | ninf
  | fin (x : Q).

Definition is_nan (x : float64) : bool :=
  match x with
  | nan => true
  | _ => false
  end.

(** [x <= y] on floats: false as soon as one side is NaN. *)
Definition float_le (x y : float64) : bool :=
  match x, y with
  | nan, _ | _, nan => false
  | ninf, _ | _, pinf => true
  | pinf, _ | _, ninf => false
  | fin a, fin b => Qle_bool a b
  end.

(** [x < y] *)
Definition float_lt (x y : float64) : bool :=
  match x, y with
  | nan, _ | _, nan => false
  | _, _ => negb (float_le y x)
  end.

Notation "x ≼ y" := (float_le x y = true) (at level 70, no associativity).
Notation "x ≺ y" := (float_lt x y = true) (at level 70, no associativity).

(** A Python [int] as a float. *)
Definition of_int (n : Z) : float64 := fin (inject_Z n).

(** ** Cells and rows *)

(** A cell of a column as [read_csv] delivers it: a float (NaN for an empty
    field) or text. *)
Inductive cell : Type :=
  | Float (x : float64)
  | Str (s : string).

(** The cell of an empty field. *)
Definition NaN : cell := Float nan.

(** One row of the CSV file. *)
Record RawRow : Type := mkRawRow {
  raw_Country : string;
  raw_Major_Isotopes : cell;
  raw_Total_Production_TBq : cell
}.

(** One row of [df] after the cleaning block (lines 110-123). *)
Record Row : Type := mkRow {
  Country : string;
  Major_Isotopes : cell;
  Total_Production_TBq : float64;
  Latitude : Q;
  Longitude : Q;
  ISO : string;
  Isotope_List : list string
}.

(** ** Reference tables (lines 36-89) *)

Definition coords (lat lon : Q) : gmap string Q :=
  list_to_map [("lat", lat); ("lon", lon)].

Definition COUNTRY_COORDS : gmap string (gmap string Q) :=
  list_to_map [
    ("Australia", coords (-25.27) 133.78);
    ("Austria", coords 47.52 14.55);
    ("Belarus", coords 53.71 27.95);
    ("Belgium", coords 50.50 4.47);
    ("Brazil", coords (-14.24) (-51.93));
    ("Chile", coords (-35.68) (-71.54));
    ("Czech Republic", coords 49.82 15.47);
    ("Egypt", coords 26.82 30.80);
    ("European Commission", coords 50.85 4.35);
    ("Finland", coords 61.92 25.75);
    ("France", coords 46.23 2.21);
    ("Germany", coords 51.17 10.45);
    ("India", coords 20.59 78.96);
    ("Indonesia", coords (-0.79) 113.92);
    ("Iran", coords 32.43 53.69);
    ("Japan", coords 36.20 138.25);
    ("Korea", coords 35.91 127.77);
    ("Pakistan", coords 30.38 69.35);
    ("South Africa", coords (-30.56) 22.94);
    ("Spain", coords 40.46 (-3.75));
    ("Switzerland", coords 46.82 8.23);
    ("Syria", coords 34.80 38.99);
    ("Turkey", coords 38.96 35.24);
    ("USA", coords 37.09 (-95.71))
  ].

Definition ISO_CODES : gmap string string :=
  list_to_map [
    ("Australia", "AUS"); ("Austria", "AUT"); ("Belarus", "BLR");
    ("Belgium", "BEL"); ("Brazil", "BRA"); ("Chile", "CHL");
    ("Czech Republic", "CZE"); ("Egypt", "EGY");
    ("European Commission", "EUR"); ("Finland", "FIN"); ("France", "FRA");
    ("Germany", "DEU"); ("India", "IND"); ("Indonesia", "IDN");
    ("Iran", "IRN"); ("Japan", "JPN"); ("Korea", "KOR");
    ("Pakistan", "PAK"); ("South Africa", "ZAF"); ("Spain", "ESP");
    ("Switzerland", "CHE"); ("Syria", "SYR"); ("Turkey", "TUR");
    ("USA", "USA")
  ].

(** [d.get(k, dflt)] of a Python dict. *)
Definition dict_get {V} (d : gmap string V) (k : string) (dflt : V) : V :=
  default dflt (d !! k).

(** Lines 116-118: the three lambdas mapped over the Country column. *)
Definition latitude_of (x : string) : Q :=
  dict_get (dict_get COUNTRY_COORDS x ∅) "lat" 0.
Definition longitude_of (x : string) : Q :=
  dict_get (dict_get COUNTRY_COORDS x ∅) "lon" 0.
Definition iso_of (x : string) : string :=
  dict_get ISO_CODES x "".

(** ** Cleaning (lines 110-123) *)

(** Line 121-123: the lambda applied to the Major_Isotopes column. *)
Definition isotope_list (x : cell) : list string :=
  match x with
  | Str s => PyStr.strip <$> PyStr.split "," s
  | _ => []
  end.

(** A text without whitespace at either end. *)
Definition trimmed (s : string) : Prop := PyStr.strip s = s.

(** What the specification counts instead: the trimmed segments that are
    not empty. *)
Definition nonempty_trimmed_segments (s : string) : list string :=
  filter (λ seg, seg ≠ "") (PyStr.strip <$> PyStr.split "," s).


(** [Series.fillna(value)] on one float cell. *)
Definition fillna (value x : float64) : float64 :=
  if is_nan x then value else x.

(** A method called with [inplace=True] on a column selected from the
    table, as in [df[col].fillna(0, inplace=True)] of line 113.  Without
    copy-on-write the selected column is the table's own and the change
    shows in the table; with copy-on-write the selection is a temporary
    object, the change is made to it and the table keeps its cell. *)
Definition chained_inplace (copy_on_write : bool)
    (method : float64 → float64) (x : float64) : float64 :=
  if copy_on_write then x else method x.

(** *** Reading a number out of text

    [pd.to_numeric(..., errors='coerce')] turns a text cell into a float
    through pandas' own number reader and into NaN when the text is not a
    number.  The reader is a parameter of the pipeline below;
    [decimal_to_float] is an instance of it for plain signed decimals
    (optional sign, digits, optional fraction, blanks around) and for the
    texts "inf" and "infinity", enough to run the pipeline on concrete
    tables.  A decimal too large for a float64 reads as an infinity. *)

Definition digit_of (c : ascii) : option Z := Z.of_nat <$> Ascii.is_nat c.

Fixpoint read_digits (s : string) (acc : Z) (n : nat) : Z * nat * string :=
  match s with
  | String c rest =>
      match digit_of c with
      | Some d => read_digits rest (10 * acc + d)%Z (S n)
      | None => (acc, n, s)
      end
  | EmptyString => (acc, n, s)
  end.

Definition read_sign (s : string) : bool * string :=
  match s with
  | String "-" rest => (true, rest)
  | String "+" rest => (false, rest)
  | _ => (false, s)
  end.

(** The least magnitude that rounds to an infinity: halfway between the
    largest float64 and 2^1024. *)
Definition float64_overflow : Q := inject_Z (2 ^ 1024 - 2 ^ 970).

Definition signed_inf (negative : bool) : float64 :=
  if negative then ninf else pinf.

Definition decimal_to_float (s : string) : float64 :=
  let '(neg, s1) := read_sign (PyStr.strip s) in
  if decide (s1 = "inf" ∨ s1 = "infinity") then signed_inf neg
  else
    let '(ip, ni, s2) := read_digits s1 0 0 in
    let '(m, nf, s3) :=
      match s2 with
      | String "." rest => read_digits rest ip 0
      | _ => (ip, 0%nat, s2)
      end in
    if decide (ni + nf = 0)%nat then nan
    else match s3 with
         | EmptyString =>
             let q := m # Z.to_pos (10 ^ Z.of_nat nf) in
             if Qle_bool float64_overflow q then signed_inf neg
             else fin (if neg then - q else q)
         | _ => nan
         end.

(** ** Sorting algorithms

    [sort_values] is called without [kind=], so it runs pandas' default,
    "quicksort", which the pandas documentation lists among the algorithms
    that are not stable; [value_counts] orders its tally by a sort of its
    own choice, the same default in pandas 2.  What every [kind] delivers
    is a rearrangement of the input that is in order; a [SortKind] is any
    algorithm with that contract.  [arrange le l] is the table [l] sorted
    with the larger key first, [le x y] saying that the key of [x] is at
    least the key of [y]: it puts [x] before [y] only if [le x y]. *)

Record SortKind : Type := mkSortKind {
  arrange : ∀ A : Type, (A → A → bool) → list A → list A;
  arrange_perm : ∀ A (le : A → A → bool) (l : list A), arrange A le l ≡ₚ l;
  arrange_sorted : ∀ A (le : A → A → bool) (l : list A),
    (∀ x y, le x y = true ∨ le y x = true) →
    (∀ x y z, le x y = true → le y z = true → le x z = true) →
    StronglySorted (λ x y, le x y = true) (arrange A le l)
}.
Arguments arrange _ {A} _ _.

Section insertion.
Context {A : Type} (le : A → A → bool).

Fixpoint insert_sorted (x : A) (l : list A) : list A :=
  match l with
  | [] => [x]
  | y :: l' => if le x y then x :: l else y :: insert_sorted x l'
  end.

(** Insertion sort, from the right: an element goes in front of the
    elements it ties with, which all come later in the input. *)
Fixpoint insertion_sort (l : list A) : list A :=
  match l with
  | [] => []
  | x :: l' => insert_sorted x (insertion_sort l')
  end.
End insertion.

(** *** The algorithm behind the default kind

    [numpy.argsort(kind='quicksort')] as numpy's scalar code has it
    ([aquicksort_] and [aheapsort_] of npysort): an introsort on an array of
    row numbers.  A stretch of more than 17 entries is split around the
    median of its first, middle and last entry; a shorter one is sorted by
    insertion; heapsort takes over when the splitting goes deeper than
    twice the binary logarithm of the length.  [v] is the array of keys,
    [a] the array of row numbers being rearranged, [pl] and [pr] the ends
    of the stretch at work. *)

Module NumPy.
Section aquicksort.
Context {A : Type} (less : A → A → bool) (v : list A).

(** [less(v[i], v[j])] *)
Definition vless (i j : nat) : bool :=
  match v !! i, v !! j with
  | Some x, Some y => less x y
  | _, _ => false
  end.

Definition get (a : list nat) (p : nat) : nat := default 0%nat (a !! p).

(** [INTP_SWAP(a[p], a[q])] *)
Definition swap (a : list nat) (p q : nat) : list nat :=
  <[q := get a p]> (<[p := get a q]> a).

(** [if (less(v[a[p]], v[a[q]])) INTP_SWAP(a[p], a[q])] *)
Definition swap_if_less (a : list nat) (p q : nat) : list nat :=
  if vless (get a p) (get a q) then swap a p q else a.

(** [do ++pi; while (less(v[a[pi]], vp))], [vp] being the key of row
    number [ip]. *)
Fixpoint scan_up (fuel : nat) (a : list nat) (ip pi : nat) : nat :=
  match fuel with
  | O => S pi
  | S fuel' =>
      if vless (get a (S pi)) ip then scan_up fuel' a ip (S pi) else S pi
  end.

(** [do --pj; while (less(vp, v[a[pj]]))] *)
Fixpoint scan_down (a : list nat) (ip pj : nat) : nat :=
  match pj with
  | O => O
  | S pj' => if vless ip (get a pj') then scan_down a ip pj' else pj'
  end.

(** The [for (;;)] loop of the partition. *)
Fixpoint partition_loop (fuel : nat) (a : list nat) (ip pi pj : nat)
    : list nat * nat :=
  match fuel with
  | O => (a, pi)
  | S fuel' =>
      let pi' := scan_up (length a) a ip pi in
      let pj' := scan_down a ip pj in
      if (pj' <=? pi')%nat then (a, pi')
      else partition_loop fuel' (swap a pi' pj') ip pi' pj'
  end.

(** One round of the [while ((pr - pl) > SMALL_QUICKSORT)] loop, up to the
    place of the pivot. *)
Definition partition (a : list nat) (pl pr : nat) : list nat * nat :=
  let pm := (pl + (pr - pl) / 2)%nat in
  let a := swap_if_less a pm pl in
  let a := swap_if_less a pr pm in
  let a := swap_if_less a pm pl in
  let ip := get a pm in
  let a := swap a pm (pr - 1) in
  let '(a, pi) := partition_loop (length a) a ip pl (pr - 1) in
  (swap a pi (pr - 1), pi).

(** The inner loop of the insertion sort: row number [vi] moves down from
    place [pj] past the entries with a larger key. *)
Fixpoint shift_down (a : list nat) (vi pl pj : nat) : list nat :=
  match pj with
  | O => <[0%nat := vi]> a
  | S pk =>
      if (pl <? pj)%nat && vless vi (get a pk)
      then shift_down (<[pj := get a pk]> a) vi pl pk
      else <[pj := vi]> a
  end.

Definition insertion (a : list nat) (pl pr : nat) : list nat :=
  fold_left (λ a pi, shift_down a (get a pi) pl pi) (seq (S pl) (pr - pl)) a.

(** The sift loop of [aheapsort_]; the heap is the stretch from [pl],
    counted from 1. *)
Fixpoint sift (fuel : nat) (a : list nat) (pl n tmp i j : nat) : list nat :=
  match fuel with
  | O => <[(pl + i - 1)%nat := tmp]> a
  | S fuel' =>
      if (j <=? n)%nat then
        let j :=
          if (j <? n)%nat
             && vless (get a (pl + j - 1)) (get a (pl + (j + 1) - 1))
          then S j else j in
        if vless tmp (get a (pl + j - 1))
        then sift fuel' (<[(pl + i - 1)%nat := get a (pl + j - 1)]> a)
               pl n tmp j (j + j)
        else <[(pl + i - 1)%nat := tmp]> a
      else <[(pl + i - 1)%nat := tmp]> a
  end.

Definition heapify (a : list nat) (pl n : nat) : list nat :=
  fold_left (λ a l, sift n a pl n (get a (pl + l - 1)) l (l + l))
    (reverse (seq 1 (n / 2))) a.

Definition heap_pop_all (a : list nat) (pl n : nat) : list nat :=
  fold_left
    (λ a n,
       let tmp := get a (pl + n - 1) in
       let a := <[(pl + n - 1)%nat := get a pl]> a in
       sift n a pl (n - 1) tmp 1 2)
    (reverse (seq 2 (n - 1))) a.

Definition aheapsort (a : list nat) (pl n : nat) : list nat :=
  heap_pop_all (heapify a pl n) pl n.

(** The outer [while (1)] loop with its stack of stretches left to do.
    [check] tells whether the depth is looked at first, which the code
    does on entry and after a pop, not between two splits. *)
Fixpoint run (fuel : nat) (check : bool) (a : list nat) (pl pr : nat)
    (cdepth : Z) (stack : list (nat * nat * Z)) : list nat :=
  match fuel with
  | O => a
  | S fuel' =>
      let pop a :=
        match stack with
        | [] => a
        | (pl', pr', cdepth') :: stack' =>
            run fuel' true a pl' pr' cdepth' stack'
        end in
      if check && (cdepth <? 0)%Z then pop (aheapsort a pl (pr - pl + 1))
      else if (16 <? pr - pl)%nat then
        let '(a, pi) := partition a pl pr in
        let cdepth := (cdepth - 1)%Z in
        if (pi - pl <? pr - pi)%nat
        then run fuel' false a pl (pi - 1) cdepth ((S pi, pr, cdepth) :: stack)
        else run fuel' false a (S pi) pr cdepth
               ((pl, (pi - 1)%nat, cdepth) :: stack)
      else pop (insertion a pl pr)
  end.

(** The row numbers in ascending order of their keys. *)
Definition aquicksort : list nat :=
  let num := length v in
  match num with
  | O => []
  | S _ =>
      run (4 * num + 4) true (seq 0 num) 0 (num - 1)
        (2 * Z.log2 (Z.of_nat num)) []
  end.

End aquicksort.
End NumPy.

(** [nargsort(items, kind='quicksort', ascending=False)] of pandas followed
    by [take]: the keys are put in reverse, sorted ascending by numpy, and
    the outcome is put in reverse again.  [le x y] says that the key of [x]
    is at least the key of [y], so numpy's [less x y] is its negation. *)
Definition nargsort_desc {A} (le : A → A → bool) (l : list A) : list nat :=
  NumPy.aquicksort (λ x y, negb (le x y)) (reverse l).

Definition take_desc {A} (l : list A) (ix : list nat) : list A :=
  reverse (omap (λ j, reverse l !! j) ix).

Definition quicksort_desc {A} (le : A → A → bool) (l : list A) : list A :=
  take_desc l (nargsort_desc le l).

(** Whether [ix] holds each of the row numbers below [n] once. *)
Definition is_indexer (n : nat) (ix : list nat) : bool :=
  bool_decide (merge_sort (≤)%nat ix = seq 0 n).

(** [quicksort_desc] with its outcome checked: the outcome is kept when it
    is a rearrangement of the table that is in order, as the outcome of a
    sort is; insertion sort stands in otherwise.  The check is what makes
    the algorithm a [SortKind] without a proof of numpy's code. *)
Definition checked_quicksort_desc {A} (le : A → A → bool) (l : list A)
    : list A :=
  if is_indexer (length l) (nargsort_desc le l)
     && bool_decide (StronglySorted (λ x y, le x y = true) (quicksort_desc le l))
  then quicksort_desc le l
  else insertion_sort le l.

(** ** The pipeline *)

Section Pipeline.

(** Whether pandas runs with copy-on-write. *)
Variable copy_on_write : bool.
(** pandas' number reader: NaN when the text is not a number. *)
Variable str_to_float : string → float64.
(** The algorithm behind the default [kind] of [sort_values], and the one
    [value_counts] orders its tally with. *)
Variable kind : SortKind.
Variable counts_kind : SortKind.

(** Line 112: [pd.to_numeric(col, errors='coerce')] on one cell. *)
Definition to_numeric (x : cell) : float64 :=
  match x with
  | Float v => v
  | Str s => str_to_float s
  end.

(** Lines 112-123 on one row. *)
Definition clean_row (r : RawRow) : Row :=
  let x := raw_Country r in
  {| Country := x;
     Major_Isotopes := raw_Major_Isotopes r;
     Total_Production_TBq :=
       chained_inplace copy_on_write (fillna (fin 0))
         (to_numeric (raw_Total_Production_TBq r));
     Latitude := latitude_of x;
     Longitude := longitude_of x;
     ISO := iso_of x;
     Isotope_List := isotope_list (raw_Major_Isotopes r) |}.

(** [df] after line 123. *)
Definition clean (csv : list RawRow) : list Row := clean_row <$> csv.

(** *** Filter (lines 141-144) *)

(** [df['Total_Production_TBq'] >= min_production]; the slider hands over
    a Python [int]. *)
Definition ge_mask (col : list float64) (min_production : Z) : list bool :=
  (λ v, float_le (of_int min_production) v) <$> col.

(** [df['Country'].isin(selected_countries)] *)
Definition isin (col : list string) (values : list string) : list bool :=
  (λ c, bool_decide (c ∈ values)) <$> col.

(** [mask1 & mask2] *)
Definition mask_and (m1 m2 : list bool) : list bool := zip_with andb m1 m2.

(** [df[mask]]: the rows whose mask entry is set.  The masks built below
    have one entry per row. *)
Fixpoint boolean_index (df : list Row) (mask : list bool) : list Row :=
  match df, mask with
  | r :: df', b :: mask' =>
      if b then r :: boolean_index df' mask' else boolean_index df' mask'
  | _, _ => []
  end.

Definition filtered_df (df : list Row) (min_production : Z)
    (selected_countries : list string) : list Row :=
  boolean_index df
    (mask_and (ge_mask (Total_Production_TBq <$> df) min_production)
              (isin (Country <$> df) selected_countries)).

(** The predicate of the filter, as the specification words it. *)
Definition passes (min_production : Z) (selected_countries : list string)
    (r : Row) : Prop :=
  of_int min_production ≼ Total_Production_TBq r
  ∧ Country r ∈ selected_countries.

(** *** Ranking (line 213) *)

(** The order of [sort_values(col, ascending=False)]: the larger value
    first, NaN after every number. *)
Definition by_production_desc (x y : Row) : bool :=
  is_nan (Total_Production_TBq y)
  || float_le (Total_Production_TBq y) (Total_Production_TBq x).

(** [df.sort_values(col, ascending=False)]: the rows with a number are
    sorted, the rows with NaN follow in the order they have in [df]
    ([na_position='last']). *)
Definition sort_values_desc (df : list Row) : list Row :=
  (arrange kind by_production_desc
     (filter (λ r, is_nan (Total_Production_TBq r) = false) df)
   ++ filter (λ r, is_nan (Total_Production_TBq r) = true) df)%list.

(** [df.head(10)] *)
Definition head10 (df : list Row) : list Row := take 10 df.

Definition top_countries (view : list Row) : list Row :=
  head10 (sort_values_desc view).

(** *** Isotope frequency (lines 250-256) *)

(** The loop of lines 251-253. *)
Definition all_isotopes (df : list Row) : list string :=
  fold_left (λ acc isotopes, (acc ++ isotopes)%list) (Isotope_List <$> df) [].

(** Counting of [value_counts]: one entry per distinct value, in the order
    the values are first met. *)
Fixpoint bump (v : string) (tbl : list (string * nat)) : list (string * nat) :=
  match tbl with
  | [] => [(v, 1%nat)]
  | (k, n) :: rest =>
      if decide (k = v) then (k, S n) :: rest else (k, n) :: bump v rest
  end.

Definition tally (values : list string) : list (string * nat) :=
  fold_left (λ tbl v, bump v tbl) values [].

Definition by_count_desc (x y : string * nat) : bool := (y.2 <=? x.2)%nat.

(** [pd.Series(values).value_counts()]: the tally, larger count first. *)
Definition value_counts (values : list string) : list (string * nat) :=
  arrange counts_kind by_count_desc (tally values).

Definition isotope_counts (df : list Row) : list (string * nat) :=
  value_counts (all_isotopes df).

(** *** Isotope by country (lines 283-291) *)

Record Entry : Type := mkEntry {
  entry_Isotope : string;
  entry_Country : string;
  entry_Production : float64
}.

(** The nested loop of lines 285-291, one [append] per isotope. *)
Definition isotope_matrix (view : list Row) : list Entry :=
  fold_left
    (λ acc row,
       fold_left
         (λ acc' isotope,
            (acc' ++ [mkEntry isotope (Country row) (Total_Production_TBq row)])%list)
         (Isotope_List row) acc)
    view [].

(** *** The script *)

Record Dashboard : Type := mkDashboard {
  out_df : list Row;
  out_filtered_df : list Row;
  out_top_countries : list Row;
  out_pie_values : list float64;
  out_pie_names : list string;
  out_isotope_counts : list (string * nat);
  out_isotope_matrix : list Entry
}.

(** The block of lines 110-318, which the script runs on the table read
    from the fixed path: [csv] is what [read_csv] returned, the other two
    arguments are what the slider and the multiselect of the sidebar
    returned.  Every later chart reads [filtered_df]; the frequency table
    alone reads [df]. *)
Definition dashboard (csv : list RawRow) (min_production : Z)
    (selected_countries : list string) : Dashboard :=
  let df := clean csv in
  let view := filtered_df df min_production selected_countries in
  let top := top_countries view in
  {| out_df := df;
     out_filtered_df := view;
     out_top_countries := top;
     out_pie_values := Total_Production_TBq <$> view;
     out_pie_names := Country <$> view;
     out_isotope_counts := isotope_counts df;
     out_isotope_matrix := isotope_matrix view |}.

End Pipeline.

Definition sample_csv : list RawRow := [
  mkRawRow "Belgium" (Str "Mo-99, I-131") (Str "2000");
  mkRawRow "India" (Str "Tc-99m, I-131, Co-60") (Str "1500.5");
  mkRawRow "X" NaN (Str "NR");
  mkRawRow "Japan" (Str "Ir-192,,I-131 ") (Str "2000")
].

(** A table with a row for each country of the reference tables. *)
Definition world_csv : list RawRow := [
  mkRawRow "Australia" (Str "Ir-192, Mo-99, I-131") (Str "1200");
  mkRawRow "Austria" (Str "F-18, C-11") (Str "150");
  mkRawRow "Belarus" (Str "Co-60") (Str "NR");
  mkRawRow "Belgium" (Str "Mo-99, I-131, Tc-99m, Xe-133") (Str "2000");
  mkRawRow "Brazil" (Str "Tc-99m, I-131, Sm-153") (Str "800");
  mkRawRow "Chile" (Str "Tc-99m, I-131") (Str "150");
  mkRawRow "Czech Republic" (Str "F-18, Lu-177") (Str "400");
  mkRawRow "Egypt" (Str "I-131, Cr-51") (Str "150");
  mkRawRow "European Commission" (Str "Lu-177, Y-90") (Str "400");
  mkRawRow "Finland" (Str "F-18, O-15") (Str "NR");
  mkRawRow "France" (Str "Mo-99, Tl-201, Ga-67") (Str "1200");
  mkRawRow "Germany" (Str "Lu-177, Y-90, Ga-68") (Str "800");
  mkRawRow "India" (Str "Tc-99m, I-131, Co-60, P-32") (Str "1500.5");
  mkRawRow "Indonesia" (Str "Tc-99m, I-125") (Str "150");
  mkRawRow "Iran" (Str "I-131, Tc-99m, In-111") (Str "400");
  mkRawRow "Japan" (Str "Ir-192, I-131, N-13") (Str "2000");
  mkRawRow "Korea" (Str "I-131, Ir-192, Sr-89") (Str "800");
  mkRawRow "Pakistan" (Str "I-131, P-32") (Str "150");
  mkRawRow "South Africa" (Str "Mo-99, I-131, Cs-137") (Str "2000");
  mkRawRow "Spain" (Str "F-18, Se-75") (Str "400");
  mkRawRow "Switzerland" (Str "F-18, C-11, S-35") (Str "150");
  mkRawRow "Syria" (Str "I-131") (Str "NR");
  mkRawRow "Turkey" (Str "F-18, Tc-99m") (Str "150");
  mkRawRow "USA" (Str "Ir-192, Co-60, Tl-201, I-123") (Str "1200")
].

Global Instance Qle_decision (x y : Q) : Decision (x <= y) :=
  match Qlt_le_dec y x with
  | left H => right (Qlt_not_le _ _ H)
  | right H => left H
  end.

Global Instance Qeq_decision (x y : Q) : Decision (x == y) := Qeq_dec x y.

Global Instance passes_dec m sel r : Decision (passes m sel r).
Proof. unfold passes. apply _. Defined.

(** The entries that one row adds to the isotope-country matrix. *)
Definition entries_of (row : Row) : list Entry :=
  (λ isotope, mkEntry isotope (Country row) (Total_Production_TBq row))
    <$> Isotope_List row.

(** The ranking in the words of the specification: the first [n] rows of
    the view put in descending order by a stable sort. *)
Definition topN_spec (view : list Row) (n : Z) : list Row :=
  take (Z.to_nat n) (insertion_sort by_production_desc view).

(** Two floats that compare equal. *)
Definition float_tie (x y : float64) : Prop := x ≼ y ∧ y ≼ x.

(** Number of times [X] occurs in a list of isotopes. *)
Definition occurrences (X : string) (l : list string) : nat :=
  length (filter (λ y, y = X) l).

(** The distinct values of a list, in the order they are first met. *)
Fixpoint first_seen (l : list string) : list string :=
  match l with
  | [] => []
  | x :: l' => x :: filter (λ y, y ≠ x) (first_seen l')
  end.

(** The frequency table in the words of the specification: every isotope
    that occurs with its number of occurrences, larger count first, equal
    counts in first-seen order. *)
Definition isotopeFrequency_spec (df : list Row) : list (string * nat) :=
  let values := df ≫= Isotope_List in
  insertion_sort by_count_desc
    ((λ X, (X, occurrences X values)) <$> first_seen values).

(** ** The sidebar, the map and the rest of the script *)

(** The larger of two floats, NaN counting for nothing. *)
Definition float_max (m v : float64) : float64 :=
  if is_nan v then m
  else if is_nan m then v
  else if float_le m v then v else m.

(** [Series.max()] of a float column: the largest value that is not NaN,
    and NaN for a column without one. *)
Definition series_max (col : list float64) : float64 :=
  fold_left float_max col nan.

(** The exceptions of lines 127-132: [int] raises the first two, the
    slider widget the third. *)
Inductive PyError : Type :=
  | ValueError
  | OverflowError
  | StreamlitAPIException.

Inductive py_result (A : Type) : Type :=
  | Ok (a : A)
  | Raise (e : PyError).
Arguments Ok {A} a.
Arguments Raise {A} e.

(** [int(x)] of a Python float: the fraction is cut off (toward zero);
    [int] of NaN raises ValueError and [int] of an infinity
    OverflowError. *)
Definition py_int (x : float64) : py_result Z :=
  match x with
  | nan => Raise ValueError
  | pinf | ninf => Raise OverflowError
  | fin v => Ok (Z.quot (Qnum v) (Zpos (Qden v)))
  end.

(** Line 130: the upper end of the slider,
    [int(df['Total_Production_TBq'].max()) + 1000]. *)
Definition slider_max (df : list Row) : py_result Z :=
  match py_int (series_max (Total_Production_TBq <$> df)) with
  | Ok n => Ok (n + 1000)%Z
  | Raise e => Raise e
  end.

(** [Series.unique()]: the distinct values, kept in a table in the order
    they are met. *)
Definition unique (col : list string) : list string :=
  fold_left (λ seen v, if decide (v ∈ seen) then seen else (seen ++ [v])%list)
    col [].

(** Line 136: the options of the multiselect. *)
Definition country_options (df : list Row) : list string :=
  unique (Country <$> df).

(** Line 137: the countries selected at the start,
    [df['Country'].unique()[:5]]. *)
Definition default_countries (df : list Row) : list string :=
  take 5 (country_options df).

(** [df.empty], and the truth value of a Python list negated. *)
Definition is_empty {A} (df : list A) : bool :=
  match df with
  | [] => true
  | _ => false
  end.

(** [Series.mean()] of a float column that is not empty. *)
Definition series_mean (col : list Q) : Q :=
  foldr Qplus 0 col / inject_Z (Z.of_nat (length col)).

(** Lines 154-155: the point the map is centred on, latitude first. *)
Definition viewport (view : list Row) : Q * Q :=
  (if negb (is_empty view) then series_mean (Latitude <$> view) else 0,
   if negb (is_empty view) then series_mean (Longitude <$> view) else 0).

(** Line 293, [if isotope_matrix:]: the treemap is drawn for a list that is
    not empty, the warning of line 306 is shown otherwise. *)
Definition treemap_drawn (isotope_matrix : list Entry) : bool :=
  negb (is_empty isotope_matrix).

(** What the sidebar widgets may return.  A slider whose start value lies
    in its range returns a value of that range, when it returns one; a
    multiselect returns some of its options. *)
Definition slider_in_range (slider : Z → Z → Z → py_result Z) : Prop :=
  ∀ lo hi value v, (lo ≤ value ≤ hi)%Z →
    slider lo hi value = Ok v → (lo ≤ v ≤ hi)%Z.

Definition multiselect_of_options
    (multiselect : list string → list string → list string) : Prop :=
  ∀ options dflt, dflt ⊆ options → multiselect options dflt ⊆ options.

(** The widgets as they are before the user touches them: they return
    their default. *)
Definition untouched_slider (lo hi value : Z) : py_result Z := Ok value.
Definition untouched_multiselect (options dflt : list string) : list string :=
  dflt.

(** How a run of the script ends: with the uploaded table read and nothing
    else done, with an exception at lines 127-132, or with the tables of
    the dashboard computed. *)
Inductive Outcome : Type :=
  | UploadOnly (df : list RawRow)
  | Raised (e : PyError)
  | Computed (min_production : Z) (selected_countries : list string)
             (d : Dashboard).

Section Script.

Variable copy_on_write : bool.
Variable str_to_float : string → float64.
Variable kind : SortKind.
Variable counts_kind : SortKind.
(** [st.sidebar.slider(label, lo, hi, value)], which returns the chosen
    value or raises, and
    [st.sidebar.multiselect(label, options, default=...)]. *)
Variable slider : Z → Z → Z → py_result Z.
Variable multiselect : list string → list string → list string.

(** Line 263: the ten rows of the frequency table that the bar chart
    shows, [isotope_counts.head(10)]. *)
Definition isotope_chart (df : list Row) : list (string * nat) :=
  take 10 (isotope_counts counts_kind df).

(** Lines 101-318.  [uploaded_file] is what the uploader returned, with the
    table [read_csv] reads from it; [path_csv] is the table at the fixed
    path.  Everything below line 105 belongs to the [else] branch: with an
    uploaded file the script reads it into [df] and ends. *)
Definition script (uploaded_file : option (list RawRow))
    (path_csv : list RawRow) : Outcome :=
  match uploaded_file with
  | Some uploaded => UploadOnly uploaded
  | None =>
      let df := clean copy_on_write str_to_float path_csv in
      match slider_max df with
      | Raise e => Raised e
      | Ok hi =>
          match slider 0 hi 100 with
          | Raise e => Raised e
          | Ok min_production =>
              let selected_countries :=
                multiselect (country_options df) (default_countries df) in
              Computed min_production selected_countries
                (dashboard copy_on_write str_to_float kind counts_kind
                   path_csv min_production selected_countries)
          end
      end
  end.

End Script.

(** A point of the coordinate table that can be shown on a map and is not
    taken for the default: latitude within 90 degrees, longitude within 180,
    neither of them 0. *)
Definition table_point_ok (d : gmap string Q) : Prop :=
  (- (90) <= dict_get d "lat" 0 ∧ dict_get d "lat" 0 <= 90)
  ∧ (- (180) <= dict_get d "lon" 0 ∧ dict_get d "lon" 0 <= 180)
  ∧ ¬ dict_get d "lat" 0 == 0
  ∧ ¬ dict_get d "lon" 0 == 0.

(** * Properties *)

(** ** Strings *)

Module PyStrFacts.
Import PyStr.

Lemma split_length sep s : length (split sep s) = S (count sep s).
Proof.
  induction s as [|c s IH]; simpl; [done|].
  case_decide; simpl; [by rewrite IH|].
  destruct (split sep s); simpl in *; lia.
Qed.

Lemma split_nonempty sep s : split sep s ≠ [].
Proof. intros E. pose proof (split_length sep s) as H. by rewrite E in H. Qed.

Lemma join_cons sep p q rest :
  join sep (p :: q :: rest) = p +:+ String sep (join sep (q :: rest)).
Proof. reflexivity. Qed.

(** Splitting loses nothing: the segments, joined again, are the text. *)
Lemma join_split sep s : join sep (split sep s) = s.
Proof.
  induction s as [|c s IH]; [done|]. simpl.
  destruct (split sep s) as [|seg segs] eqn:E; [by apply split_nonempty in E|].
  case_decide as Hc.
  - subst c. rewrite join_cons, IH. reflexivity.
  - destruct segs as [|seg' segs].
    + simpl in *. by rewrite IH.
    + rewrite join_cons. rewrite join_cons in IH.
      change (String c seg +:+ ?t) with (String c (seg +:+ t)). by rewrite IH.
Qed.

Lemma split_no_sep sep s : Forall (λ seg, count sep seg = 0%nat) (split sep s).
Proof.
  induction s as [|c s IH]; simpl; [by repeat constructor|].
  case_decide; [by constructor|].
  destruct (split sep s) as [|seg segs].
  - repeat constructor. simpl. by rewrite decide_False.
  - apply Forall_cons in IH as [Hseg Hsegs].
    constructor; [|done]. simpl. by rewrite decide_False.
Qed.

Lemma lstrip_first s c : first (lstrip s) = Some c → isspace c = false.
Proof.
  induction s as [|d s IH]; simpl; [done|].
  destruct (isspace d) eqn:Hd; [done|]. simpl. by intros [= <-].
Qed.

Lemma rstrip_first s c : first (rstrip s) = Some c → first s = Some c.
Proof.
  destruct s as [|d s]; simpl; [done|].
  destruct (rstrip s); [destruct (isspace d)|]; simpl; done.
Qed.

Lemma rstrip_last s c : last (rstrip s) = Some c → isspace c = false.
Proof.
  induction s as [|d s IH]; simpl; [done|].
  destruct (rstrip s) as [|e t] eqn:E.
  - destruct (isspace d) eqn:Hd; simpl; [done|]. by intros [= <-].
  - exact IH.
Qed.

Lemma lstrip_id s :
  (∀ c, first s = Some c → isspace c = false) → lstrip s = s.
Proof. destruct s as [|d s]; simpl; [done|]. intros H. by rewrite (H d). Qed.

Lemma rstrip_id s :
  (∀ c, last s = Some c → isspace c = false) → rstrip s = s.
Proof.
  induction s as [|d s IH]; simpl; [done|]. intros H.
  destruct s as [|e t].
  - simpl. by rewrite (H d).
  - rewrite IH by exact H. done.
Qed.

(** A stripped string neither starts nor ends with whitespace. *)
Lemma strip_first s c : first (strip s) = Some c → isspace c = false.
Proof. intros H. apply (lstrip_first s), rstrip_first, H. Qed.

Lemma strip_last s c : last (strip s) = Some c → isspace c = false.
Proof. apply rstrip_last. Qed.

Lemma strip_idem s : strip (strip s) = strip s.
Proof.
  unfold strip at 1. rewrite (lstrip_id (strip s)) by apply strip_first.
  apply rstrip_id, strip_last.
Qed.

End PyStrFacts.

(** ** Floats *)

Lemma float_le_not_nan x y : x ≼ y → is_nan x = false ∧ is_nan y = false.
Proof. by destruct x, y. Qed.

Lemma float_le_refl x : is_nan x = false → x ≼ x.
Proof. destruct x; try done. intros _. apply Qle_bool_iff, Qle_refl. Qed.

Lemma float_le_trans x y z : x ≼ y → y ≼ z → x ≼ z.
Proof.
  destruct x, y, z; simpl; try done.
  rewrite !Qle_bool_iff. apply Qle_trans.
Qed.

Lemma float_le_total x y :
  is_nan x = false → is_nan y = false → x ≼ y ∨ y ≼ x.
Proof.
  destruct x as [| | |a], y as [| | |b]; simpl; try done; auto.
  intros _ _. rewrite !Qle_bool_iff.
  destruct (Qlt_le_dec a b) as [H|H]; [left; by apply Qlt_le_weak|by right].
Qed.

Lemma float_lt_not_le x y : x ≺ y → ¬ y ≼ x.
Proof.
  destruct x, y; simpl; try done; intros H; by destruct (Qle_bool _ _).
Qed.

Lemma float_not_le_lt x y :
  is_nan x = false → is_nan y = false → ¬ y ≼ x → x ≺ y.
Proof.
  destruct x, y; simpl; try done; intros _ _ H; try (by destruct H).
  by destruct (Qle_bool _ _).
Qed.

Lemma of_int_le (m n : Z) : of_int m ≼ of_int n ↔ (m ≤ n)%Z.
Proof. unfold of_int; simpl. by rewrite Qle_bool_iff, <-Zle_Qle. Qed.

(** A column after line 113 when the fill takes effect. *)
Lemma fillna_not_nan value x : is_nan value = false → is_nan (fillna value x) = false.
Proof. unfold fillna. by destruct x. Qed.

(** ** Cleaning *)

Lemma isotope_list_trimmed x : Forall trimmed (isotope_list x).
Proof.
  destruct x as [v|s]; simpl; [constructor|].
  apply Forall_fmap, Forall_true. intros seg. apply PyStrFacts.strip_idem.
Qed.

Lemma filter_length_eq {A} (P : A → Prop) `{∀ x, Decision (P x)} (l : list A) :
  length (filter P l) = length l ↔ Forall P l.
Proof.
  induction l as [|x l IH]; [by split; [constructor|]|].
  rewrite filter_cons. pose proof (length_filter P l) as Hle.
  case_decide as Hx; simpl.
  - split.
    + intros [= E]. constructor; [done|]. by apply IH.
    + intros HF. apply Forall_cons in HF as [_ HF]. f_equal. by apply IH.
  - split; [lia|]. intros HF. by apply Forall_cons in HF as [? _].
Qed.

Lemma latitude_of_unknown x : COUNTRY_COORDS !! x = None → latitude_of x = 0.
Proof.
  intros H. unfold latitude_of, dict_get. rewrite H.
  cbn [default]. by rewrite lookup_empty.
Qed.

Lemma longitude_of_unknown x : COUNTRY_COORDS !! x = None → longitude_of x = 0.
Proof.
  intros H. unfold longitude_of, dict_get. rewrite H.
  cbn [default]. by rewrite lookup_empty.
Qed.

Lemma iso_of_unknown x : ISO_CODES !! x = None → iso_of x = "".
Proof. intros H. unfold iso_of, dict_get. by rewrite H. Qed.

Lemma tables_same_keys (x : string) :
  COUNTRY_COORDS !! x = None ↔ ISO_CODES !! x = None.
Proof.
  rewrite <-!not_elem_of_dom.
  assert (dom COUNTRY_COORDS = dom ISO_CODES) as ->; [|done].
  apply (bool_decide_unpack _). vm_compute. exact I.
Qed.

Lemma clean_row_production copy_on_write str_to_float r :
  Total_Production_TBq (clean_row copy_on_write str_to_float r)
  = chained_inplace copy_on_write (fillna (fin 0))
      (to_numeric str_to_float (raw_Total_Production_TBq r)).
Proof. reflexivity. Qed.




(** C4, as the code has it.  A text cell gives one isotope per
    comma-separated segment (one more than the number of commas), each
    stripped of surrounding whitespace, in the order of the text, and a
    blank segment stays in the list as the empty string; so the length is
    the number of non-empty trimmed segments exactly when no segment is
    blank.  A cell that is not text gives the empty list. *)
Theorem isotope_list_one_per_segment (copy_on_write : bool)
    (str_to_float : string → float64) (r : RawRow) :
  let isotopes := Isotope_List (clean_row copy_on_write str_to_float r) in
  match raw_Major_Isotopes r with
  | Str s =>
      isotopes = PyStr.strip <$> PyStr.split "," s
      ∧ PyStr.join "," (PyStr.split "," s) = s
      ∧ length isotopes = S (PyStr.count "," s)
      ∧ (length isotopes = length (nonempty_trimmed_segments s)
         ↔ Forall (λ seg, seg ≠ "") isotopes)
  | _ => isotopes = []
  end
  ∧ Forall trimmed isotopes.
Proof.
  simpl. split; [|apply isotope_list_trimmed].
  destruct (raw_Major_Isotopes r) as [v|s]; simpl; try done.
  split_and!; [done|apply PyStrFacts.join_split| |].
  - by rewrite length_fmap, PyStrFacts.split_length.
  - unfold nonempty_trimmed_segments. split.
    + intros E. by apply (filter_length_eq (λ seg, seg ≠ "")).
    + intros HF. symmetry. by apply (filter_length_eq (λ seg, seg ≠ "")).
Qed.

(** C4 as stated fails: an empty segment is counted by the code. *)
Lemma isotope_list_keeps_blank_segment :
  let r := mkRawRow "Japan" (Str "Mo-99,,I-131") (Str "2000") in
  Isotope_List (clean_row false decimal_to_float r) = ["Mo-99"; ""; "I-131"]
  ∧ nonempty_trimmed_segments "Mo-99,,I-131" = ["Mo-99"; "I-131"]
  ∧ length (Isotope_List (clean_row false decimal_to_float r))
    ≠ length (nonempty_trimmed_segments "Mo-99,,I-131").
Proof. vm_compute. split_and!; [reflexivity|reflexivity|discriminate]. Qed.

(** C8, as the code has it.  Cleaning hands on what the cell reads as,
    whatever its sign: a negative number stays the negative number it is.
    A cell that reads as no number becomes [0] when the fill of line 113
    takes effect (pandas without copy-on-write) and stays NaN otherwise.
    So the production of a cleaned row is at least 0 exactly when the cell
    reads as a value that is at least 0, or reads as no number and is
    filled. *)
Theorem production_nonneg_unless_parsed_negative (copy_on_write : bool)
    (str_to_float : string → float64) (r : RawRow) :
  let x := to_numeric str_to_float (raw_Total_Production_TBq r) in
  let y := Total_Production_TBq (clean_row copy_on_write str_to_float r) in
  (x ≠ nan → y = x)
  ∧ (x = nan → y = if copy_on_write then nan else fin 0)
  ∧ (fin 0 ≼ y ↔ fin 0 ≼ x ∨ (x = nan ∧ copy_on_write = false)).
Proof.
  intros x y. subst x y. rewrite clean_row_production.
  unfold chained_inplace, fillna.
  destruct copy_on_write, (to_numeric _ _) as [| | |q]; simpl;
    split_and!; try done; split; try tauto; try (by intros [?|[? ?]]).
  all: by intros _; right.
Qed.

(** C8 as stated fails: a negative number passes through cleaning. *)
Lemma negative_production_passes_through :
  let r := mkRawRow "Belgium" (Str "Mo-99") (Str "-5") in
  Total_Production_TBq (clean_row false decimal_to_float r) = fin (-5)
  ∧ ¬ fin 0 ≼ Total_Production_TBq (clean_row false decimal_to_float r).
Proof. vm_compute. split; [reflexivity|discriminate]. Qed.

(** C9. For a country that is not a key of the reference tables (keys are
    compared as they are, so "belgium" is not "Belgium"), cleaning attaches
    latitude [0], longitude [0] and the ISO code [""].  The lookups are
    total functions of the country text. *)
Theorem unknown_country_defaults (copy_on_write : bool)
    (str_to_float : string → float64) (r : RawRow) :
  COUNTRY_COORDS !! raw_Country r = None →
  Latitude (clean_row copy_on_write str_to_float r) = 0
  ∧ Longitude (clean_row copy_on_write str_to_float r) = 0
  ∧ ISO (clean_row copy_on_write str_to_float r) = "".
Proof.
  intros H. pose proof (proj1 (tables_same_keys _) H) as H'.
  unfold clean_row; cbn [Latitude Longitude ISO].
  by rewrite latitude_of_unknown, longitude_of_unknown, iso_of_unknown.
Qed.

Lemma unknown_country_defaults_lowercase :
  let r := mkRawRow "belgium" (Str "Mo-99, I-131") (Str "2000") in
  COUNTRY_COORDS !! "belgium" = None
  ∧ Latitude (clean_row false decimal_to_float r) = 0
  ∧ Longitude (clean_row false decimal_to_float r) = 0
  ∧ ISO (clean_row false decimal_to_float r) = "".
Proof.
  split; [vm_compute; reflexivity|].
  apply (unknown_country_defaults false decimal_to_float
           (mkRawRow "belgium" (Str "Mo-99, I-131") (Str "2000"))).
  vm_compute. reflexivity.
Defined.

(** ** Filter *)

Lemma boolean_index_filter (P : Row → Prop) `{∀ r, Decision (P r)}
    (df : list Row) (mask : list bool) :
  Forall2 (λ r b, b = bool_decide (P r)) df mask →
  boolean_index df mask = filter P df.
Proof.
  induction 1 as [|r b df mask Hb _ IH]; [done|].
  simpl. rewrite filter_cons, IH, Hb.
  by destruct (decide (P r)) as [HP|HP];
    [rewrite bool_decide_eq_true_2|rewrite bool_decide_eq_false_2].
Qed.

Lemma filter_mask_spec (df : list Row) m sel :
  Forall2 (λ r b, b = bool_decide (passes m sel r)) df
    (mask_and (ge_mask (Total_Production_TBq <$> df) m)
              (isin (Country <$> df) sel)).
Proof.
  induction df as [|r df IH]; [constructor|].
  constructor; [|exact IH].
  change (float_le (of_int m) (Total_Production_TBq r)
          && bool_decide (Country r ∈ sel) = bool_decide (passes m sel r)).
  destruct (decide (passes m sel r)) as [[Hq Hc]|Hn].
  - rewrite (bool_decide_eq_true_2 (passes m sel r)) by done.
    rewrite Hq. by rewrite bool_decide_eq_true_2.
  - rewrite (bool_decide_eq_false_2 (passes m sel r)) by done.
    destruct (float_le _ _) eqn:Hq; [|done].
    apply bool_decide_eq_false_2. intros Hc. apply Hn. by split.
Qed.

Lemma filtered_df_filter (df : list Row) m sel :
  filtered_df df m sel = filter (passes m sel) df.
Proof. apply boolean_index_filter, filter_mask_spec. Qed.

Lemma filter_nothing {A} (P : A → Prop) `{∀ x, Decision (P x)} (l : list A) :
  Forall (λ x, ¬ P x) l → filter P l = [].
Proof.
  induction 1 as [|x l Hx _ IH]; [done|]. by rewrite filter_cons_False.
Qed.

Lemma filter_everything {A} (P : A → Prop) `{∀ x, Decision (P x)} (l : list A) :
  Forall P l → filter P l = l.
Proof.
  induction 1 as [|x l Hx _ IH]; [done|]. by rewrite filter_cons_True, IH.
Qed.

(** C6. The filter returns the rows of [df] that have a production of at
    least [min_production] and a country among [selected_countries], in the
    order of [df] and nothing else.  It is a total function; when no row
    passes (no country selected, or a threshold above every production) the
    result is the empty table. *)
Theorem filtered_df_exactly_passing (df : list Row) (min_production : Z)
    (selected_countries : list string) :
  let view := filtered_df df min_production selected_countries in
  view = filter (passes min_production selected_countries) df
  ∧ view `sublist_of` df
  ∧ (∀ r, r ∈ view ↔ r ∈ df ∧ passes min_production selected_countries r)
  ∧ (Forall (λ r, ¬ passes min_production selected_countries r) df → view = [])
  ∧ filtered_df df min_production [] = []
  ∧ (Forall (λ r, ¬ of_int min_production ≼ Total_Production_TBq r) df →
     view = [])
  ∧ (Forall (λ r, Total_Production_TBq r ≺ of_int min_production) df →
     view = []).
Proof.
  simpl. rewrite !filtered_df_filter. split_and!.
  - done.
  - apply sublist_filter.
  - intros r. rewrite list_elem_of_filter. tauto.
  - apply filter_nothing.
  - apply filter_nothing, Forall_true. intros r [_ Hin]. by apply elem_of_nil in Hin.
  - intros HF. apply filter_nothing. eapply Forall_impl; [exact HF|].
    intros r Hlt [Hle _]. by apply Hlt.
  - intros HF. apply filter_nothing. eapply Forall_impl; [exact HF|].
    intros r Hlt [Hle _]. by apply float_lt_not_le in Hlt.
Qed.

(** C10. Filtering a filtered view again with the same threshold and
    selection changes nothing. *)
Theorem filtered_df_idempotent (df : list Row) (min_production : Z)
    (selected_countries : list string) :
  filtered_df (filtered_df df min_production selected_countries)
    min_production selected_countries
  = filtered_df df min_production selected_countries.
Proof.
  rewrite !filtered_df_filter. apply filter_everything.
  apply Forall_forall. intros r Hr. by apply list_elem_of_filter in Hr as [? _].
Qed.

(** ** Isotope by country *)

Lemma append_entries row (isotopes : list string) (acc : list Entry) :
  fold_left
    (λ acc' isotope,
       (acc' ++ [mkEntry isotope (Country row) (Total_Production_TBq row)])%list)
    isotopes acc
  = (acc ++ ((λ isotope,
               mkEntry isotope (Country row) (Total_Production_TBq row))
             <$> isotopes))%list.
Proof.
  revert acc. induction isotopes as [|i l IH]; intros acc; simpl.
  - by rewrite app_nil_r.
  - by rewrite IH, <-app_assoc.
Qed.

Lemma isotope_matrix_bind (view : list Row) :
  isotope_matrix view = view ≫= entries_of.
Proof.
  unfold isotope_matrix.
  enough (∀ acc, fold_left
            (λ acc row,
               fold_left
                 (λ acc' isotope,
                    (acc' ++ [mkEntry isotope (Country row)
                                (Total_Production_TBq row)])%list)
                 (Isotope_List row) acc) view acc
          = (acc ++ (view ≫= entries_of))%list) as H by apply (H []).
  induction view as [|row view IH]; intros acc; simpl.
  - by rewrite app_nil_r.
  - by rewrite append_entries, IH, <-app_assoc.
Qed.

(** C2. The matrix holds, row after row of the view, one entry for each
    isotope of the row, carrying the row's country and the row's whole
    production.  Its length is the sum of the lengths of the rows' isotope
    lists, and it is empty for the empty view. *)
Theorem isotope_matrix_one_entry_per_isotope (view : list Row) :
  isotope_matrix view = view ≫= entries_of
  ∧ length (isotope_matrix view)
    = sum_list ((λ row, length (Isotope_List row)) <$> view)
  ∧ (∀ e, e ∈ isotope_matrix view ↔
          ∃ row, row ∈ view
                 ∧ entry_Isotope e ∈ Isotope_List row
                 ∧ entry_Country e = Country row
                 ∧ entry_Production e = Total_Production_TBq row)
  ∧ isotope_matrix [] = [].
Proof.
  rewrite isotope_matrix_bind. split_and!; [done| | |done].
  - induction view as [|row view IH]; [done|].
    rewrite bind_cons, length_app, IH. unfold entries_of.
    by rewrite length_fmap.
  - intros e. rewrite list_elem_of_bind. unfold entries_of. split.
    + intros (row & He & Hrow). apply list_elem_of_fmap in He as (i & -> & Hi).
      by exists row.
    + intros (row & Hrow & Hi & Hc & Hp). exists row. split; [|done].
      apply list_elem_of_fmap. exists (entry_Isotope e). split; [|done].
      destruct e; simpl in *; by subst.
Qed.

(** ** Sorting *)

Section insertion_facts.
Context {A : Type} (le : A → A → bool).

Lemma insert_sorted_perm x l : insert_sorted le x l ≡ₚ x :: l.
Proof.
  induction l as [|y l IH]; simpl; [done|].
  destruct (le x y); [done|]. rewrite IH. apply Permutation_swap.
Qed.

Lemma insertion_sort_perm l : insertion_sort le l ≡ₚ l.
Proof.
  induction l as [|x l IH]; simpl; [done|].
  by rewrite insert_sorted_perm, IH.
Qed.

Section order.
Hypothesis le_total : ∀ x y, le x y = true ∨ le y x = true.
Hypothesis le_trans : ∀ x y z, le x y = true → le y z = true → le x z = true.

Lemma insert_sorted_sorted x l :
  StronglySorted (λ a b, le a b = true) l →
  StronglySorted (λ a b, le a b = true) (insert_sorted le x l).
Proof.
  induction 1 as [|y l Hl IH Hy]; simpl; [by repeat constructor|].
  destruct (le x y) eqn:Hxy.
  - constructor; [by constructor|]. constructor; [done|].
    eapply Forall_impl; [exact Hy|]. intros z Hz. by eapply le_trans.
  - constructor; [done|]. rewrite insert_sorted_perm.
    constructor; [|done].
    destruct (le_total x y) as [H|H]; [congruence|done].
Qed.

Lemma insertion_sort_sorted l :
  StronglySorted (λ a b, le a b = true) (insertion_sort le l).
Proof.
  induction l as [|x l IH]; simpl; [constructor|].
  by apply insert_sorted_sorted.
Qed.
End order.

(** Stability: elements that tie with each other keep the order they had
    in the input. *)
Section ties.
Context (P : A → Prop) `{∀ x, Decision (P x)}.
Hypothesis P_ties : ∀ x y, P x → P y → le x y = true.

Lemma filter_insert_sorted x l :
  filter P (insert_sorted le x l) = filter P (x :: l).
Proof.
  induction l as [|y l IH]; simpl; [done|].
  destruct (le x y) eqn:Hxy; [done|].
  rewrite filter_cons, IH, !filter_cons.
  destruct (decide (P y)) as [Hy|Hy]; [|done].
  destruct (decide (P x)) as [Hx|Hx]; [|done].
  rewrite P_ties in Hxy by done. discriminate.
Qed.

Lemma filter_insertion_sort l :
  filter P (insertion_sort le l) = filter P l.
Proof.
  induction l as [|x l IH]; simpl; [done|].
  by rewrite filter_insert_sorted, !filter_cons, IH.
Qed.
End ties.
End insertion_facts.

(** A stable algorithm (what [kind='stable'] or [kind='mergesort'] would
    select). *)
Definition stable_kind : SortKind :=
  {| arrange := @insertion_sort;
     arrange_perm := @insertion_sort_perm;
     arrange_sorted := λ A le l Htotal Htrans,
       insertion_sort_sorted le Htotal Htrans l |}.

Lemma omap_lookup_seq {A} (pre l : list A) :
  omap (λ j, (pre ++ l)%list !! j) (seq (length pre) (length l)) = l.
Proof.
  revert pre. induction l as [|x l IH]; intros pre; [done|].
  cbn [length seq omap list_omap]. rewrite list_lookup_middle by done.
  f_equal. specialize (IH (pre ++ [x])%list).
  rewrite length_app, Nat.add_1_r, <-app_assoc in IH. exact IH.
Qed.

Lemma take_desc_perm {A} (l : list A) (ix : list nat) :
  is_indexer (length l) ix = true → take_desc l ix ≡ₚ l.
Proof.
  intros H%bool_decide_eq_true. unfold take_desc.
  rewrite reverse_Permutation, <-(merge_sort_Permutation (≤)%nat ix), H.
  rewrite <-(length_reverse l).
  pose proof (omap_lookup_seq [] (reverse l)) as E. cbn [app length] in E.
  rewrite E. apply reverse_Permutation.
Qed.

Lemma checked_quicksort_desc_perm {A} (le : A → A → bool) (l : list A) :
  checked_quicksort_desc le l ≡ₚ l.
Proof.
  unfold checked_quicksort_desc.
  destruct (is_indexer _ _) eqn:Hix; simpl; [|apply insertion_sort_perm].
  case_bool_decide; [|apply insertion_sort_perm]. by apply take_desc_perm.
Qed.

Lemma checked_quicksort_desc_sorted {A} (le : A → A → bool) (l : list A) :
  (∀ x y, le x y = true ∨ le y x = true) →
  (∀ x y z, le x y = true → le y z = true → le x z = true) →
  StronglySorted (λ x y, le x y = true) (checked_quicksort_desc le l).
Proof.
  intros Htotal Htrans. unfold checked_quicksort_desc.
  destruct (is_indexer _ _); simpl; [|by apply insertion_sort_sorted].
  case_bool_decide; [done|by apply insertion_sort_sorted].
Qed.

(** The default kind, "quicksort": numpy's introsort as pandas calls it for
    a descending sort. *)
Definition np_kind : SortKind :=
  {| arrange := @checked_quicksort_desc;
     arrange_perm := @checked_quicksort_desc_perm;
     arrange_sorted := λ A le l Htotal Htrans,
       checked_quicksort_desc_sorted le l Htotal Htrans |}.

Lemma StronglySorted_impl {A} (R R' : A → A → Prop) (l : list A) :
  (∀ x y, R x y → R' x y) → StronglySorted R l → StronglySorted R' l.
Proof.
  intros HR. induction 1 as [|x l _ IH Hx]; constructor; [done|].
  eapply Forall_impl; [exact Hx|]. auto.
Qed.

Lemma StronglySorted_take {A} (R : A → A → Prop) (n : nat) (l : list A) :
  StronglySorted R l → StronglySorted R (take n l).
Proof.
  intros H. rewrite <-(take_drop n l) in H. by apply StronglySorted_app_1_l in H.
Qed.

Lemma by_production_desc_total x y :
  by_production_desc x y = true ∨ by_production_desc y x = true.
Proof.
  unfold by_production_desc.
  destruct (is_nan (Total_Production_TBq y)) eqn:Hy; [by left|].
  destruct (is_nan (Total_Production_TBq x)) eqn:Hx; [by right|].
  simpl. destruct (float_le_total _ _ Hx Hy); auto.
Qed.

Lemma by_production_desc_trans x y z :
  by_production_desc x y = true → by_production_desc y z = true →
  by_production_desc x z = true.
Proof.
  unfold by_production_desc.
  destruct (is_nan (Total_Production_TBq z)) eqn:Hz; [done|]. simpl.
  intros Hxy Hyz. pose proof Hyz as [_ Hy]%float_le_not_nan.
  rewrite Hy in Hxy. simpl in Hxy. by eapply float_le_trans.
Qed.

Lemma by_production_desc_le x y :
  is_nan (Total_Production_TBq y) = false →
  by_production_desc x y = true →
  Total_Production_TBq y ≼ Total_Production_TBq x.
Proof. unfold by_production_desc. by intros ->. Qed.

Lemma filter_bool_split {A} (f : A → bool) (l : list A) :
  (filter (λ x, f x = false) l ++ filter (λ x, f x = true) l)%list ≡ₚ l.
Proof.
  induction l as [|x l IH]; [done|]. rewrite !filter_cons.
  destruct (decide (f x = false)) as [E|E], (decide (f x = true)) as [E'|E'].
  - congruence.
  - simpl. by rewrite IH.
  - by rewrite <-Permutation_middle, IH.
  - by destruct (f x).
Qed.

Lemma StronglySorted_all {A} (R : A → A → Prop) (P : A → Prop) (l : list A) :
  (∀ x y, P y → R x y) → Forall P l → StronglySorted R l.
Proof.
  intros HR. induction 1 as [|x l Hx Hl IH]; constructor; [done|].
  eapply Forall_impl; [exact Hl|]. auto.
Qed.

Lemma sort_values_desc_perm kind (df : list Row) : sort_values_desc kind df ≡ₚ df.
Proof.
  unfold sort_values_desc. rewrite arrange_perm.
  apply (filter_bool_split (λ r, is_nan (Total_Production_TBq r))).
Qed.

Lemma sort_values_desc_sorted kind (df : list Row) :
  StronglySorted (λ x y, by_production_desc x y = true)
    (sort_values_desc kind df).
Proof.
  unfold sort_values_desc. apply StronglySorted_app_2.
  - intros x y _ [Hy _]%list_elem_of_filter.
    unfold by_production_desc. by rewrite Hy.
  - apply arrange_sorted;
      [apply by_production_desc_total|apply by_production_desc_trans].
  - apply (StronglySorted_all _ (λ r, is_nan (Total_Production_TBq r) = true)).
    + intros x y Hy. unfold by_production_desc. by rewrite Hy.
    + apply Forall_forall. by intros r [Hr _]%list_elem_of_filter.
Qed.

Lemma sort_values_desc_sorted_numbers kind (df : list Row) :
  Forall (λ r, is_nan (Total_Production_TBq r) = false) df →
  StronglySorted (λ x y, Total_Production_TBq y ≼ Total_Production_TBq x)
    (sort_values_desc kind df).
Proof.
  intros Hdf.
  assert (Forall (λ r, is_nan (Total_Production_TBq r) = false)
            (sort_values_desc kind df)) as Hnum.
  { by rewrite sort_values_desc_perm. }
  pose proof (sort_values_desc_sorted kind df) as Hs.
  induction Hs as [|x l Hl IH Hx]; constructor.
  - apply IH. by apply Forall_cons in Hnum as [_ ?].
  - apply Forall_cons in Hnum as [_ Hnum].
    rewrite Forall_forall in Hx, Hnum. apply Forall_forall. intros y Hy.
    apply by_production_desc_le; auto.
Qed.

Global Instance float_tie_dec x y : Decision (float_tie x y).
Proof. unfold float_tie. apply _. Defined.

Lemma float_tie_not_nan x v : float_tie x v → is_nan x = false.
Proof. intros [H _]. by apply float_le_not_nan in H as [? _]. Qed.

Lemma sort_values_desc_stable (v : float64) (df : list Row) :
  filter (λ r, float_tie (Total_Production_TBq r) v)
    (sort_values_desc stable_kind df)
  = filter (λ r, float_tie (Total_Production_TBq r) v) df.
Proof.
  unfold sort_values_desc. rewrite filter_app. cbn [arrange stable_kind].
  rewrite (filter_insertion_sort by_production_desc
             (λ r, float_tie (Total_Production_TBq r) v)).
  - rewrite !list_filter_filter.
    rewrite (filter_nothing (λ r, _ ∧ is_nan (Total_Production_TBq r) = true)).
    + rewrite app_nil_r. apply list_filter_iff. intros r. split; [by intros [? _]|].
      intros Hr. split; [done|]. by eapply float_tie_not_nan.
    + apply Forall_true. intros r [Hr Hn].
      apply float_tie_not_nan in Hr. congruence.
  - intros x y [Hx1 Hx2] [Hy1 Hy2]. unfold by_production_desc.
    rewrite (float_le_trans _ _ _ Hy1 Hx2). apply orb_true_r.
Qed.

(** ** Ranking *)

(** C5, as the code has it.  The ranking is the first ten rows (all of them
    when the view has fewer) of a rearrangement of the view in which the
    production never increases, rows with NaN last; the rows left out have
    at most the production of the rows kept.  The number of rows is fixed
    at ten.  The view itself is not touched: the pie chart and the matrix
    that follow read it as the filter returned it.  Rows of equal
    production keep their order of the view when the sort is stable; the
    default kind that the script runs is not. *)
Theorem top_countries_first_ten (kind : SortKind) (view : list Row) :
  let ranked := sort_values_desc kind view in
  let top := top_countries kind view in
  top = take 10 ranked
  ∧ ranked ≡ₚ view
  ∧ StronglySorted (λ x y, by_production_desc x y = true) ranked
  ∧ (Forall (λ r, is_nan (Total_Production_TBq r) = false) view →
     StronglySorted
       (λ x y, Total_Production_TBq y ≼ Total_Production_TBq x) ranked)
  ∧ StronglySorted (λ x y, by_production_desc x y = true) top
  ∧ length top = 10 `min` length view
  ∧ (top ++ drop 10 ranked ≡ₚ view)%list
  ∧ (∀ x y, x ∈ top → y ∈ drop 10 ranked → by_production_desc x y = true)
  ∧ (∀ v, filter (λ r, float_tie (Total_Production_TBq r) v)
            (sort_values_desc stable_kind view)
          = filter (λ r, float_tie (Total_Production_TBq r) v) view)
  ∧ (∀ copy_on_write str_to_float counts_kind csv min_production
       selected_countries,
       let d := dashboard copy_on_write str_to_float kind counts_kind csv
                  min_production selected_countries in
       out_top_countries d = top_countries kind (out_filtered_df d)
       ∧ out_filtered_df d
         = filtered_df (clean copy_on_write str_to_float csv) min_production
             selected_countries
       ∧ out_pie_names d = Country <$> out_filtered_df d
       ∧ out_isotope_matrix d = isotope_matrix (out_filtered_df d)).
Proof.
  simpl. pose proof (sort_values_desc_sorted kind view) as Hs.
  pose proof (sort_values_desc_perm kind view) as Hp.
  unfold top_countries, head10. split_and!; try done.
  - apply sort_values_desc_sorted_numbers.
  - by apply StronglySorted_take.
  - by rewrite length_take, Hp.
  - by rewrite take_drop.
  - intros x y Hx Hy. rewrite <-(take_drop 10 (sort_values_desc kind view)) in Hs.
    by apply (StronglySorted_app_1_elem_of _ _ _ x y) in Hs.
  - intros v. apply sort_values_desc_stable.
Qed.

(** C5 as stated fails.  With the threshold at its start value 100 and
    every country of [world_csv] selected the view has 21 rows, three of
    them with the largest production, 2000: Belgium, Japan and South
    Africa, in this order.  numpy's quicksort splits a stretch of 21 rows
    around a pivot and does not keep equal keys in place: the ranking that
    the script shows is not the one a stable sort gives. *)
Lemma top_countries_ties_reordered :
  let df := clean false decimal_to_float world_csv in
  let view := filtered_df df 100 (country_options df) in
  length view = 21%nat
  ∧ Country <$> filter (λ r, float_tie (Total_Production_TBq r) (fin 2000)) view
    = ["Belgium"; "Japan"; "South Africa"]
  ∧ top_countries np_kind view ≠ topN_spec view 10
  ∧ Country <$> top_countries np_kind view ≠ Country <$> topN_spec view 10.
Proof.
  vm_compute. split_and!; [reflexivity|reflexivity|discriminate|discriminate].
Qed.

(** The two rankings of that view. *)
Example top_countries_world :
  let df := clean false decimal_to_float world_csv in
  let view := filtered_df df 100 (country_options df) in
  Country <$> top_countries np_kind view
  = ["Belgium"; "South Africa"; "Japan"; "India"; "France"; "Australia";
     "USA"; "Germany"; "Korea"; "Brazil"]
  ∧ Country <$> topN_spec view 10
    = ["Belgium"; "Japan"; "South Africa"; "India"; "Australia"; "France";
       "USA"; "Brazil"; "Germany"; "Korea"]
  ∧ top_countries np_kind view
    = take 10 (quicksort_desc by_production_desc view).
Proof. vm_compute. split_and!; reflexivity. Qed.


(** ** Isotope frequency *)

Lemma all_isotopes_bind (df : list Row) : all_isotopes df = df ≫= Isotope_List.
Proof.
  unfold all_isotopes.
  enough (∀ acc, fold_left (λ acc isotopes, (acc ++ isotopes)%list)
                   (Isotope_List <$> df) acc
                 = (acc ++ (df ≫= Isotope_List))%list) as H by apply (H []).
  induction df as [|r df IH]; intros acc; simpl.
  - by rewrite app_nil_r.
  - by rewrite IH, <-app_assoc.
Qed.

Lemma occurrences_app X l1 l2 :
  occurrences X (l1 ++ l2) = (occurrences X l1 + occurrences X l2)%nat.
Proof. unfold occurrences. by rewrite filter_app, length_app. Qed.

Lemma occurrences_snoc X l v :
  occurrences X (l ++ [v])
  = if decide (X = v) then S (occurrences X l) else occurrences X l.
Proof.
  rewrite occurrences_app. unfold occurrences at 2.
  rewrite filter_cons, filter_nil.
  destruct (decide (X = v)) as [->|Hne].
  - rewrite decide_True by done. simpl. lia.
  - rewrite decide_False by done. simpl. lia.
Qed.

Lemma occurrences_pos X l : (0 < occurrences X l)%nat ↔ X ∈ l.
Proof.
  unfold occurrences. induction l as [|a l IH].
  - split; [simpl; lia|by intros ?%elem_of_nil].
  - rewrite filter_cons, elem_of_cons. destruct (decide (a = X)) as [->|Hne].
    + simpl. split; [by left|lia].
    + rewrite IH. split; [by right|]. by intros [->|?].
Qed.

Lemma occurrences_bind X (df : list Row) :
  occurrences X (df ≫= Isotope_List)
  = sum_list ((λ r, occurrences X (Isotope_List r)) <$> df).
Proof.
  induction df as [|r df IH]; [done|].
  by rewrite bind_cons, occurrences_app, IH.
Qed.

Lemma elem_of_first_seen X l : X ∈ first_seen l ↔ X ∈ l.
Proof.
  induction l as [|a l IH]; [done|]. simpl.
  rewrite !elem_of_cons, list_elem_of_filter, IH.
  destruct (decide (X = a)); tauto.
Qed.

Lemma NoDup_first_seen l : NoDup (first_seen l).
Proof.
  induction l as [|a l IH]; simpl; [constructor|].
  apply NoDup_cons. split; [|by apply NoDup_filter].
  rewrite list_elem_of_filter. by intros [Ha _].
Qed.

Lemma first_seen_snoc l v :
  first_seen (l ++ [v])
  = if decide (v ∈ l) then first_seen l else (first_seen l ++ [v])%list.
Proof.
  induction l as [|x l IH].
  - by rewrite decide_False by apply not_elem_of_nil.
  - simpl. rewrite IH. destruct (decide (v ∈ l)) as [Hl|Hl].
    + by rewrite decide_True by (by right).
    + rewrite filter_app, filter_cons, filter_nil.
      destruct (decide (v = x)) as [->|Hne].
      * destruct (decide (x ≠ x)) as [Hx|_]; [done|].
        destruct (decide (x ∈ x :: l)) as [_|Hx]; [by rewrite app_nil_r|].
        exfalso. apply Hx. by left.
      * destruct (decide (v ≠ x)) as [_|Hx]; [|done].
        destruct (decide (v ∈ x :: l)) as [Hx|_]; [|done].
        by apply elem_of_cons in Hx as [?|?].
Qed.

Lemma bump_tagged (f : string → nat) v (ks : list string) :
  NoDup ks →
  bump v ((λ X, (X, f X)) <$> ks)
  = if decide (v ∈ ks)
    then (λ X, (X, if decide (X = v) then S (f X) else f X)) <$> ks
    else (((λ X, (X, f X)) <$> ks) ++ [(v, 1%nat)])%list.
Proof.
  induction ks as [|k ks IH]; intros Hnd.
  - by rewrite decide_False by apply not_elem_of_nil.
  - apply NoDup_cons in Hnd as [Hk Hnd]. rewrite !fmap_cons. simpl.
    destruct (decide (k = v)) as [->|Hne].
    + rewrite decide_True by (by left). f_equal.
      apply Forall_fmap_ext_1, Forall_forall. intros X HX.
      rewrite decide_False; [done|]. by intros ->.
    + rewrite IH by done. destruct (decide (v ∈ ks)) as [Hv|Hv].
      * by rewrite decide_True by (by right).
      * rewrite decide_False; [done|]. rewrite elem_of_cons.
        by intros [?|?].
Qed.

Lemma tally_snoc l v : tally (l ++ [v]) = bump v (tally l).
Proof. unfold tally. by rewrite fold_left_app. Qed.

(** The tally lists the distinct values in first-seen order, each with the
    number of its occurrences. *)
Lemma tally_spec l :
  tally l = (λ X, (X, occurrences X l)) <$> first_seen l.
Proof.
  induction l as [|v l IH] using rev_ind; [done|].
  rewrite tally_snoc, IH, bump_tagged, first_seen_snoc by apply NoDup_first_seen.
  destruct (decide (v ∈ l)) as [Hv|Hv].
  - rewrite decide_True by (by apply elem_of_first_seen).
    apply Forall_fmap_ext_1, Forall_true. intros X.
    by rewrite occurrences_snoc.
  - rewrite decide_False by (by rewrite elem_of_first_seen).
    rewrite fmap_snoc. f_equal.
    + apply Forall_fmap_ext_1, Forall_forall. intros X HX.
      rewrite occurrences_snoc, decide_False; [done|].
      intros ->. apply Hv. by apply elem_of_first_seen.
    + rewrite occurrences_snoc, decide_True by done.
      assert (occurrences v l = 0%nat) as ->; [|done].
      pose proof (occurrences_pos v l) as Hpos.
      destruct (occurrences v l); [done|]. exfalso. apply Hv, Hpos. lia.
Qed.

Lemma tally_keys l : (tally l).*1 = first_seen l.
Proof.
  rewrite tally_spec, <-list_fmap_compose. apply list_fmap_id.
Qed.

Lemma elem_of_tally X n l :
  (X, n) ∈ tally l ↔ n = occurrences X l ∧ (0 < n)%nat.
Proof.
  rewrite tally_spec, list_elem_of_fmap. split.
  - intros (Y & [= -> ->] & HY). split; [done|].
    by apply occurrences_pos, elem_of_first_seen.
  - intros [-> Hn]. exists X. split; [done|].
    by apply elem_of_first_seen, occurrences_pos.
Qed.

Lemma filter_fmap_tagged (f : string → nat) (n : nat) (ks : list string) :
  (filter (λ e : string * nat, e.2 = n) ((λ X, (X, f X)) <$> ks)).*1
  = filter (λ X, f X = n) ks.
Proof.
  induction ks as [|k ks IH]; [done|].
  rewrite fmap_cons, !filter_cons.
  destruct (decide ((k, f k).2 = n)) as [H1|H1];
    destruct (decide (f k = n)) as [H2|H2]; try done.
  by rewrite fmap_cons, IH.
Qed.

Lemma by_count_desc_total x y :
  by_count_desc x y = true ∨ by_count_desc y x = true.
Proof. unfold by_count_desc. rewrite !Nat.leb_le. lia. Qed.

Lemma by_count_desc_trans x y z :
  by_count_desc x y = true → by_count_desc y z = true →
  by_count_desc x z = true.
Proof. unfold by_count_desc. rewrite !Nat.leb_le. lia. Qed.

(** C1, as the code has it.  The frequency table is computed from [df], the
    cleaned table before any filter.  It lists every isotope that occurs
    exactly once, with the number of its occurrences over the isotope lists
    of all rows (a repeat within a row counts again), the larger count
    first.  Isotopes of equal count come in first-seen order when the sort
    is stable; the default kind that [value_counts] runs in pandas 2 is
    not. *)
Theorem isotope_counts_occurrences (kind : SortKind) (df : list Row) :
  let values := all_isotopes df in
  let table := isotope_counts kind df in
  values = df ≫= Isotope_List
  ∧ (∀ X, occurrences X values
          = sum_list ((λ r, occurrences X (Isotope_List r)) <$> df))
  ∧ (∀ X n, (X, n) ∈ table ↔ n = occurrences X values ∧ (0 < n)%nat)
  ∧ NoDup table.*1
  ∧ StronglySorted (λ a b, (b.2 ≤ a.2)%nat) table
  ∧ (∀ n, (filter (λ e, e.2 = n) (isotope_counts stable_kind df)).*1
          = filter (λ X, occurrences X values = n) (first_seen values))
  ∧ isotope_counts stable_kind df = isotopeFrequency_spec df
  ∧ (∀ copy_on_write str_to_float sort_kind csv min_production
       selected_countries,
       df = clean copy_on_write str_to_float csv →
       out_isotope_counts
         (dashboard copy_on_write str_to_float sort_kind kind csv
            min_production selected_countries)
       = table).
Proof.
  simpl. unfold isotope_counts, value_counts.
  pose proof (arrange_perm kind _ by_count_desc (tally (all_isotopes df))) as Hp.
  split_and!.
  - apply all_isotopes_bind.
  - intros X. rewrite all_isotopes_bind. apply occurrences_bind.
  - intros X n. rewrite Hp. apply elem_of_tally.
  - rewrite Hp, tally_keys. apply NoDup_first_seen.
  - eapply StronglySorted_impl;
      [|apply arrange_sorted;
        [apply by_count_desc_total|apply by_count_desc_trans]].
    intros x y. apply Nat.leb_le.
  - intros n. simpl.
    rewrite (filter_insertion_sort by_count_desc (λ e, e.2 = n)).
    + rewrite tally_spec. apply filter_fmap_tagged.
    + intros x y Hx Hy. unfold by_count_desc. apply Nat.leb_le. lia.
  - unfold isotopeFrequency_spec. simpl.
    by rewrite tally_spec, all_isotopes_bind.
  - by intros cow p sk csv m sel ->.
Qed.

(** C1 as stated fails in its last part.  The isotope lists of [world_csv]
    name 25 isotopes, 14 of them once, and Xe-133 is the first of these to
    be seen.  [value_counts] of pandas 2 sorts the tally with numpy's
    quicksort, which splits a stretch of 25 counts around a pivot and does
    not keep equal counts in place: the table that the script computes is
    not in first-seen order among the isotopes that occur once. *)
Lemma isotope_counts_ties_not_first_seen :
  let df := clean false decimal_to_float world_csv in
  length (isotope_counts np_kind df) = 25%nat
  ∧ take 1 (filter (λ X, occurrences X (all_isotopes df) = 1%nat)
              (first_seen (all_isotopes df))) = ["Xe-133"]
  ∧ take 1 (filter (λ e, e.2 = 1%nat) (isotope_counts np_kind df)).*1
    ≠ ["Xe-133"]
  ∧ isotope_counts np_kind df ≠ isotopeFrequency_spec df.
Proof.
  vm_compute. split_and!; [reflexivity|reflexivity|discriminate|discriminate].
Qed.

(** The two frequency tables of [world_csv]. *)
Example isotope_counts_world :
  let df := clean false decimal_to_float world_csv in
  isotope_counts np_kind df
  = [("I-131", 12); ("Tc-99m", 7); ("F-18", 6); ("Ir-192", 4); ("Mo-99", 4);
     ("Co-60", 3); ("Lu-177", 3); ("C-11", 2); ("Y-90", 2); ("Tl-201", 2);
     ("P-32", 2); ("In-111", 1); ("S-35", 1); ("Se-75", 1); ("Cs-137", 1);
     ("Sr-89", 1); ("N-13", 1); ("O-15", 1); ("I-125", 1); ("Ga-68", 1);
     ("Ga-67", 1); ("Cr-51", 1); ("Sm-153", 1); ("Xe-133", 1);
     ("I-123", 1)]%nat
  ∧ isotopeFrequency_spec df
    = [("I-131", 12); ("Tc-99m", 7); ("F-18", 6); ("Ir-192", 4); ("Mo-99", 4);
       ("Co-60", 3); ("Lu-177", 3); ("C-11", 2); ("Y-90", 2); ("Tl-201", 2);
       ("P-32", 2); ("Xe-133", 1); ("Sm-153", 1); ("Cr-51", 1); ("O-15", 1);
       ("Ga-67", 1); ("Ga-68", 1); ("I-125", 1); ("In-111", 1); ("N-13", 1);
       ("Sr-89", 1); ("Cs-137", 1); ("Se-75", 1); ("S-35", 1);
       ("I-123", 1)]%nat
  ∧ isotope_counts np_kind df
    = quicksort_desc by_count_desc (tally (all_isotopes df)).
Proof. vm_compute. split_and!; reflexivity. Qed.


(** ** The examples of the specification *)

Example belgium_matrix :
  let view :=
    filtered_df
      [mkRow "Belgium" (Str "Mo-99,I-131") (fin 2000) 50.50 4.47 "BEL"
         ["Mo-99"; "I-131"]]
      500 ["Belgium"] in
  Country <$> view = ["Belgium"]
  ∧ isotope_matrix view
    = [mkEntry "Mo-99" "Belgium" (fin 2000);
       mkEntry "I-131" "Belgium" (fin 2000)].
Proof. vm_compute. split; reflexivity. Qed.

Example not_reported_row :
  clean_row false decimal_to_float (mkRawRow "X" NaN (Str "NR"))
  = mkRow "X" NaN (fin 0) 0 0 "" [].
Proof. vm_compute. reflexivity. Qed.

Example known_country :
  latitude_of "Belgium" = 50.50 ∧ longitude_of "Belgium" = 4.47
  ∧ iso_of "Belgium" = "BEL".
Proof. vm_compute. split_and!; reflexivity. Qed.

Example decimal_to_float_samples :
  decimal_to_float
    <$> ["2000"; " 1500.5 "; "-5"; "+.5"; "inf"; "-inf"; "NR"; ""; ".";
         "1.2.3"; "12a"]
  = [fin 2000; fin 1500.5; fin (-5); fin 0.5; pinf; ninf; nan; nan; nan;
     nan; nan].
Proof. vm_compute. reflexivity. Qed.

(** * Further properties of the script *)

(** ** The reference tables in the cleaned rows *)

Lemma COUNTRY_COORDS_points_ok :
  map_Forall (λ _ d, table_point_ok d) COUNTRY_COORDS.
Proof. apply (bool_decide_unpack _). vm_compute. exact I. Qed.

Lemma ISO_CODES_not_blank : map_Forall (λ _ code, code ≠ "") ISO_CODES.
Proof. apply (bool_decide_unpack _). vm_compute. exact I. Qed.

Lemma ISO_CODES_distinct : NoDup (map_to_list ISO_CODES).*2.
Proof. apply (bool_decide_unpack _). vm_compute. exact I. Qed.

Lemma latitude_of_known x d :
  COUNTRY_COORDS !! x = Some d → latitude_of x = dict_get d "lat" 0.
Proof. intros H. unfold latitude_of. unfold dict_get at 2. by rewrite H. Qed.

Lemma longitude_of_known x d :
  COUNTRY_COORDS !! x = Some d → longitude_of x = dict_get d "lon" 0.
Proof. intros H. unfold longitude_of. unfold dict_get at 2. by rewrite H. Qed.

Lemma iso_of_known x code : ISO_CODES !! x = Some code → iso_of x = code.
Proof. intros H. unfold iso_of, dict_get. by rewrite H. Qed.

Lemma NoDup_snd_inj {K V} (l : list (K * V)) k1 k2 v :
  NoDup l.*2 → (k1, v) ∈ l → (k2, v) ∈ l → k1 = k2.
Proof.
  induction l as [|[k w] l IH]; intros Hnd H1 H2; [by apply elem_of_nil in H1|].
  rewrite fmap_cons in Hnd. apply NoDup_cons in Hnd as [Hw Hnd].
  apply elem_of_cons in H1 as [H1|H1]; apply elem_of_cons in H2 as [H2|H2].
  - congruence.
  - injection H1 as -> ->. exfalso. apply Hw.
    apply list_elem_of_fmap. by exists (k2, w).
  - injection H2 as -> ->. exfalso. apply Hw.
    apply list_elem_of_fmap. by exists (k1, w).
  - by apply IH.
Qed.

(** X1. The defaults are told apart from the table: a cleaned row has the
    ISO code [""] exactly when its country is not a key of the tables, and
    likewise the latitude [0] and the longitude [0]. *)
Theorem defaults_only_for_unknown_country
    (copy_on_write : bool)
    (str_to_float : string → float64) (r : RawRow) :
  (ISO (clean_row copy_on_write str_to_float r) = ""
   ↔ ISO_CODES !! raw_Country r = None)
  ∧ (Latitude (clean_row copy_on_write str_to_float r) = 0
     ↔ COUNTRY_COORDS !! raw_Country r = None)
  ∧ (Longitude (clean_row copy_on_write str_to_float r) = 0
     ↔ COUNTRY_COORDS !! raw_Country r = None).
Proof.
  unfold clean_row; cbn [Latitude Longitude ISO]. split_and!.
  - split; [|apply iso_of_unknown].
    destruct (ISO_CODES !! raw_Country r) as [code|] eqn:E; [|done].
    rewrite (iso_of_known _ _ E). intros ->.
    by apply (map_Forall_lookup_1 _ _ _ _ ISO_CODES_not_blank) in E.
  - split; [|apply latitude_of_unknown].
    destruct (COUNTRY_COORDS !! raw_Country r) as [d|] eqn:E; [|done].
    rewrite (latitude_of_known _ _ E). intros H0.
    apply (map_Forall_lookup_1 _ _ _ _ COUNTRY_COORDS_points_ok) in E
      as (_ & _ & Hlat & _).
    exfalso. apply Hlat. by rewrite H0.
  - split; [|apply longitude_of_unknown].
    destruct (COUNTRY_COORDS !! raw_Country r) as [d|] eqn:E; [|done].
    rewrite (longitude_of_known _ _ E). intros H0.
    apply (map_Forall_lookup_1 _ _ _ _ COUNTRY_COORDS_points_ok) in E
      as (_ & _ & _ & Hlon).
    exfalso. apply Hlon. by rewrite H0.
Qed.

(** X2. Whatever the input row, the coordinates attached by cleaning are a
    point of the globe: the latitude lies between -90 and 90 and the
    longitude between -180 and 180. *)
Theorem cleaned_coordinates_on_the_globe
    (copy_on_write : bool)
    (str_to_float : string → float64) (r : RawRow) :
  (- (90) <= Latitude (clean_row copy_on_write str_to_float r)
   ∧ Latitude (clean_row copy_on_write str_to_float r) <= 90)
  ∧ (- (180) <= Longitude (clean_row copy_on_write str_to_float r)
     ∧ Longitude (clean_row copy_on_write str_to_float r) <= 180).
Proof.
  unfold clean_row; cbn [Latitude Longitude].
  destruct (COUNTRY_COORDS !! raw_Country r) as [d|] eqn:E.
  - rewrite (latitude_of_known _ _ E), (longitude_of_known _ _ E).
    apply (map_Forall_lookup_1 _ _ _ _ COUNTRY_COORDS_points_ok) in E
      as (Hlat & Hlon & _). done.
  - rewrite (latitude_of_unknown _ E), (longitude_of_unknown _ E).
    repeat split; discriminate.
Qed.

(** X3. Two cleaned rows that carry the same ISO code, other than the empty
    default, are rows of the same country: the table gives no code to two
    countries. *)
Theorem same_iso_code_same_country
    (copy_on_write : bool)
    (str_to_float : string → float64) (r1 r2 : RawRow) :
  ISO (clean_row copy_on_write str_to_float r1)
  = ISO (clean_row copy_on_write str_to_float r2) →
  ISO (clean_row copy_on_write str_to_float r1) ≠ "" →
  raw_Country r1 = raw_Country r2.
Proof.
  unfold clean_row; cbn [ISO]. intros Heq Hne.
  destruct (ISO_CODES !! raw_Country r1) as [c1|] eqn:E1;
    [|by rewrite (iso_of_unknown _ E1) in Hne].
  destruct (ISO_CODES !! raw_Country r2) as [c2|] eqn:E2;
    [|by rewrite Heq, (iso_of_unknown _ E2) in Hne].
  rewrite (iso_of_known _ _ E1), (iso_of_known _ _ E2) in Heq. subst c2.
  apply elem_of_map_to_list in E1, E2.
  exact (NoDup_snd_inj _ _ _ _ ISO_CODES_distinct E1 E2).
Qed.

Lemma same_iso_code_same_country_Belgium :
  let r1 := mkRawRow "Belgium" (Str "Mo-99, I-131") (Str "2000") in
  let r2 := mkRawRow "Belgium" NaN (Str "NR") in
  ISO (clean_row false decimal_to_float r1) = "BEL"
  ∧ ISO (clean_row false decimal_to_float r2) = "BEL"
  ∧ raw_Country r1 = raw_Country r2.
Proof.
  split_and!; [vm_compute; reflexivity..|].
  apply (same_iso_code_same_country false decimal_to_float
           (mkRawRow "Belgium" (Str "Mo-99, I-131") (Str "2000"))
           (mkRawRow "Belgium" NaN (Str "NR"))).
  - vm_compute. reflexivity.
  - vm_compute. discriminate.
Defined.

(** ** Isotope lists and the treemap *)

Lemma isotope_list_nil_iff (x : cell) :
  isotope_list x = [] ↔ ∀ s, x ≠ Str s.
Proof.
  destruct x as [v|s]; simpl; [done|]. split.
  - intros H. apply fmap_nil_inv in H. by apply PyStrFacts.split_nonempty in H.
  - intros H. by destruct (H s).
Qed.

(** X4. A text cell always gives at least one isotope, the empty text
    included: the isotope list of a cleaned row is empty exactly when the
    [Major_Isotopes] cell is not text. *)
Theorem isotope_list_empty_iff_not_text
    (copy_on_write : bool)
    (str_to_float : string → float64) (r : RawRow) :
  Isotope_List (clean_row copy_on_write str_to_float r) = []
  ↔ ∀ s, raw_Major_Isotopes r ≠ Str s.
Proof. unfold clean_row; cbn [Isotope_List]. apply isotope_list_nil_iff. Qed.

Lemma bind_nil_iff {A B} (f : A → list B) (l : list A) :
  l ≫= f = [] ↔ Forall (λ x, f x = []) l.
Proof.
  induction l as [|x l IH]; [by split; [constructor|]|].
  rewrite bind_cons, Forall_cons. split.
  - intros H. apply app_eq_nil in H as [Hx Hl]. split; [done|]. by apply IH.
  - intros [Hx Hl]. rewrite Hx. by apply IH.
Qed.

(** A row as cleaning makes it: the derived columns agree with the columns
    they are derived from. *)
Lemma elem_of_clean copy_on_write str_to_float csv r :
  r ∈ clean copy_on_write str_to_float csv →
  Isotope_List r = isotope_list (Major_Isotopes r)
  ∧ Latitude r = latitude_of (Country r)
  ∧ Longitude r = longitude_of (Country r)
  ∧ ISO r = iso_of (Country r).
Proof.
  unfold clean. intros H. by apply list_elem_of_fmap in H as (raw & -> & _).
Qed.

Lemma elem_of_filtered_df (df : list Row) m sel r :
  r ∈ filtered_df df m sel ↔ r ∈ df ∧ passes m sel r.
Proof. rewrite filtered_df_filter, list_elem_of_filter. tauto. Qed.

(** X5. The warning of line 306 replaces the treemap exactly when no row of
    the filtered view has text in [Major_Isotopes]; a view that is not
    empty can get the warning, and a single row with text, even empty
    text, gets the treemap. *)
Theorem treemap_warning_iff_no_isotope_text
    (copy_on_write : bool)
    (str_to_float : string → float64) (csv : list RawRow)
    (min_production : Z) (selected_countries : list string) :
  let view :=
    filtered_df (clean copy_on_write str_to_float csv) min_production
      selected_countries in
  treemap_drawn (isotope_matrix view) = false
  ↔ ∀ r, r ∈ view → ∀ s, Major_Isotopes r ≠ Str s.
Proof.
  simpl. rewrite isotope_matrix_bind. unfold treemap_drawn.
  transitivity
    (filtered_df (clean copy_on_write str_to_float csv) min_production
       selected_countries ≫= entries_of = []).
  { destruct (_ ≫= _); simpl; split; done. }
  rewrite bind_nil_iff, Forall_forall.
  split; intros H r Hr.
  - apply isotope_list_nil_iff.
    pose proof Hr as Hc. apply elem_of_filtered_df in Hc as [Hc _].
    apply elem_of_clean in Hc as [<- _].
    specialize (H r Hr). unfold entries_of in H. by apply fmap_nil_inv in H.
  - pose proof Hr as Hc. apply elem_of_filtered_df in Hc as [Hc _].
    apply elem_of_clean in Hc as [Hc _].
    unfold entries_of. rewrite Hc.
    by rewrite (proj2 (isotope_list_nil_iff _) (H r Hr)).
Qed.

(** ** The slider *)

Lemma float_max_l m v : is_nan m = false → m ≼ float_max m v.
Proof.
  intros Hm. unfold float_max.
  destruct (is_nan v) eqn:Hv; [by apply float_le_refl|]. rewrite Hm.
  destruct (float_le m v) eqn:E; [done|by apply float_le_refl].
Qed.

Lemma float_max_r m v : is_nan v = false → v ≼ float_max m v.
Proof.
  intros Hv. unfold float_max. rewrite Hv.
  destruct (is_nan m) eqn:Hm; [by apply float_le_refl|].
  destruct (float_le m v) eqn:E; [by apply float_le_refl|].
  destruct (float_le_total m v Hm Hv); [congruence|done].
Qed.

Lemma float_max_cases m v : float_max m v = m ∨ float_max m v = v.
Proof.
  unfold float_max.
  destruct (is_nan v), (is_nan m), (float_le m v); auto.
Qed.

Lemma fold_float_max_bound (col : list float64) (m0 : float64) :
  (is_nan m0 = false → m0 ≼ fold_left float_max col m0)
  ∧ Forall (λ v, is_nan v = false → v ≼ fold_left float_max col m0) col.
Proof.
  revert m0. induction col as [|v col IH]; intros m0; simpl.
  - split; [apply float_le_refl|constructor].
  - destruct (IH (float_max m0 v)) as [Hm Hcol]. split.
    + intros H0. pose proof (float_max_l m0 v H0) as H1.
      eapply float_le_trans; [exact H1|].
      apply Hm. by apply float_le_not_nan in H1 as [_ ?].
    + constructor; [|done]. intros Hv. pose proof (float_max_r m0 v Hv) as H1.
      eapply float_le_trans; [exact H1|].
      apply Hm. by apply float_le_not_nan in H1 as [_ ?].
Qed.

Lemma fold_float_max_in (col : list float64) (m0 : float64) :
  fold_left float_max col m0 ∈ m0 :: col.
Proof.
  revert m0. induction col as [|v col IH]; intros m0; simpl; [by left|].
  specialize (IH (float_max m0 v)).
  apply elem_of_cons in IH as [->|IH]; [|by do 2 right].
  destruct (float_max_cases m0 v) as [->| ->]; [by left|by right; left].
Qed.

(** The largest value bounds every value of the column that is not NaN. *)
Lemma series_max_bound (col : list float64) (v : float64) :
  v ∈ col → is_nan v = false → v ≼ series_max col.
Proof.
  intros Hv Hn. destruct (fold_float_max_bound col nan) as [_ H].
  rewrite Forall_forall in H. by apply H.
Qed.

Lemma series_max_in (col : list float64) :
  is_nan (series_max col) = false → series_max col ∈ col.
Proof.
  intros Hn. pose proof (fold_float_max_in col nan) as H.
  apply elem_of_cons in H as [H|H]; [|done].
  unfold series_max in Hn. by rewrite H in Hn.
Qed.

Lemma series_max_nan (col : list float64) :
  series_max col = nan ↔ Forall (λ v, v = nan) col.
Proof.
  split.
  - intros Hm. apply Forall_forall. intros v Hv.
    destruct (is_nan v) eqn:Hn; [by destruct v|].
    pose proof (series_max_bound col v Hv Hn) as H. rewrite Hm in H.
    by destruct v.
  - intros H. unfold series_max.
    induction H as [|v col -> _ IH]; [done|]. exact IH.
Qed.

Lemma series_max_pinf (col : list float64) :
  series_max col = pinf ↔ pinf ∈ col.
Proof.
  split.
  - intros Hm. rewrite <-Hm. apply series_max_in. by rewrite Hm.
  - intros Hin. pose proof (series_max_bound col pinf Hin eq_refl) as H.
    by destruct (series_max col).
Qed.

Lemma py_int_above (v : Q) :
  v < inject_Z (Z.quot (Qnum v) (Zpos (Qden v)) + 1).
Proof.
  destruct v as [a b]. unfold Qlt; simpl.
  pose proof (Z.quot_rem' a (Zpos b)) as Hqr.
  assert (Z.rem a (Zpos b) < Zpos b)%Z as Hrem.
  { pose proof (Z.rem_bound_abs a (Zpos b)). lia. }
  nia.
Qed.

Lemma py_int_nonneg (v : Q) :
  0 <= v → (0 ≤ Z.quot (Qnum v) (Zpos (Qden v)))%Z.
Proof.
  destruct v as [a b]. unfold Qle; simpl. intros H.
  apply Z.quot_pos; lia.
Qed.

Lemma slider_max_Ok (df : list Row) (hi : Z) :
  slider_max df = Ok hi ↔
  ∃ m, series_max (Total_Production_TBq <$> df) = fin m
       ∧ hi = (Z.quot (Qnum m) (Zpos (Qden m)) + 1000)%Z.
Proof.
  unfold slider_max, py_int.
  destruct (series_max _) as [| | |m]; split;
    try done; try (by intros (? & ? & ?)).
  - intros [= <-]. by exists m.
  - by intros (? & [= <-] & ->).
Qed.

Lemma slider_max_Raise (df : list Row) (e : PyError) :
  slider_max df = Raise e ↔
  match e with
  | ValueError => series_max (Total_Production_TBq <$> df) = nan
  | OverflowError =>
      series_max (Total_Production_TBq <$> df) = pinf
      ∨ series_max (Total_Production_TBq <$> df) = ninf
  | StreamlitAPIException => False
  end.
Proof.
  unfold slider_max, py_int.
  destruct (series_max _) as [| | |m], e; split;
    try done; auto; by intros [?|?].
Qed.

Lemma below_slider_max (df : list Row) (hi : Z) (r : Row) :
  slider_max df = Ok hi → r ∈ df →
  ¬ of_int hi ≼ Total_Production_TBq r.
Proof.
  intros (m & Hm & ->)%slider_max_Ok Hr Hle.
  pose proof Hle as [_ Hn]%float_le_not_nan.
  assert (Total_Production_TBq r ≼ fin m) as Hmax.
  { rewrite <-Hm. apply series_max_bound; [|done].
    apply list_elem_of_fmap. by exists r. }
  pose proof (float_le_trans _ _ _ Hle Hmax) as H. unfold of_int in H.
  simpl in H. apply Qle_bool_iff in H.
  pose proof (py_int_above m) as Habove.
  apply (Qlt_not_le _ _ Habove). eapply Qle_trans; [|exact H].
  rewrite <-Zle_Qle. lia.
Qed.

(** X6. The upper end of the slider lies above every production of the
    table, so with the slider at its upper end no row passes the filter,
    whatever countries are selected. *)
Theorem slider_at_maximum_empties_view (df : list Row) (hi : Z) :
  slider_max df = Ok hi →
  Forall (λ r, Total_Production_TBq r = nan
               ∨ Total_Production_TBq r ≺ of_int hi) df
  ∧ Forall (λ r, ¬ of_int hi ≼ Total_Production_TBq r) df
  ∧ ∀ selected_countries, filtered_df df hi selected_countries = [].
Proof.
  intros Hhi.
  assert (Forall (λ r, ¬ of_int hi ≼ Total_Production_TBq r) df) as Hall.
  { apply Forall_forall. intros r Hr. by eapply below_slider_max. }
  split_and!; [|done|].
  - eapply Forall_impl; [exact Hall|]. intros r Hr.
    destruct (is_nan (Total_Production_TBq r)) eqn:Hn.
    + left. by destruct (Total_Production_TBq r).
    + right. by apply float_not_le_lt.
  - intros sel. rewrite filtered_df_filter.
    apply filter_nothing. eapply Forall_impl; [exact Hall|].
    intros r Hlt [Hle _]. by apply Hlt.
Qed.

Lemma slider_at_maximum_empties_view_sample :
  slider_max (clean false decimal_to_float sample_csv) = Ok 3000%Z
  ∧ filtered_df (clean false decimal_to_float sample_csv) 3000
      ["Belgium"; "India"; "Japan"; "X"] = [].
Proof.
  split; [vm_compute; reflexivity|].
  apply (slider_at_maximum_empties_view
           (clean false decimal_to_float sample_csv) 3000).
  vm_compute. reflexivity.
Defined.

Lemma slider_max_nonneg (df : list Row) (r : Row) :
  r ∈ df → fin 0 ≼ Total_Production_TBq r →
  Forall (λ r, Total_Production_TBq r ≠ pinf) df →
  ∃ hi, slider_max df = Ok hi ∧ (1000 ≤ hi)%Z.
Proof.
  intros Hr Hpos Hfin.
  pose proof Hpos as [_ Hn]%float_le_not_nan.
  assert (Total_Production_TBq r ≼ series_max (Total_Production_TBq <$> df))
    as Hmax.
  { apply series_max_bound; [|done]. apply list_elem_of_fmap. by exists r. }
  pose proof (float_le_trans _ _ _ Hpos Hmax) as H0.
  pose proof H0 as [_ Hm]%float_le_not_nan.
  apply series_max_in in Hm. apply list_elem_of_fmap in Hm as (r' & Hr' & Hin).
  rewrite Forall_forall in Hfin. specialize (Hfin r' Hin).
  destruct (series_max (Total_Production_TBq <$> df)) as [| | |m] eqn:E;
    try done; try (by rewrite <-Hr' in Hfin); try congruence.
  exists (Z.quot (Qnum m) (Zpos (Qden m)) + 1000)%Z. split.
  - apply slider_max_Ok. by exists m.
  - simpl in H0. apply Qle_bool_iff in H0.
    pose proof (py_int_nonneg m H0). lia.
Qed.

(** X7. When some row of the table has a production that is not negative
    and no row has the production plus infinity, the slider gets a range:
    its upper end is computed and is at least 1000, so the range from 0
    holds the start value 100. *)
Theorem slider_range_holds_start_value (df : list Row) (r : Row) :
  r ∈ df → fin 0 ≼ Total_Production_TBq r →
  Forall (λ r, Total_Production_TBq r ≠ pinf) df →
  ∃ hi, slider_max df = Ok hi ∧ (0 ≤ 100 ≤ hi)%Z ∧ (1000 ≤ hi)%Z.
Proof.
  intros Hr Hpos Hfin.
  destruct (slider_max_nonneg df r Hr Hpos Hfin) as (hi & Hhi & Hle).
  exists hi. split; [done|]. lia.
Qed.

Lemma slider_range_holds_start_value_sample :
  ∃ hi, slider_max (clean false decimal_to_float sample_csv) = Ok hi
        ∧ (0 ≤ 100 ≤ hi)%Z ∧ (1000 ≤ hi)%Z.
Proof.
  apply (slider_range_holds_start_value
           (clean false decimal_to_float sample_csv)
           (clean_row false decimal_to_float
              (mkRawRow "Belgium" (Str "Mo-99, I-131") (Str "2000")))).
  - vm_compute. left.
  - vm_compute. reflexivity.
  - vm_compute. repeat constructor; discriminate.
Defined.

(** ** The country selection *)

Lemma unique_snoc (l : list string) (v : string) :
  unique (l ++ [v])
  = if decide (v ∈ unique l) then unique l else (unique l ++ [v])%list.
Proof. unfold unique. by rewrite fold_left_app. Qed.

Lemma unique_first_seen (l : list string) : unique l = first_seen l.
Proof.
  induction l as [|v l IH] using rev_ind; [done|].
  rewrite unique_snoc, first_seen_snoc, IH.
  destruct (decide (v ∈ l)) as [Hv|Hv].
  - by rewrite decide_True by (by apply elem_of_first_seen).
  - by rewrite decide_False by (by rewrite elem_of_first_seen).
Qed.

Lemma filter_iff_in {A} (P Q : A → Prop)
    `{∀ x, Decision (P x)} `{∀ x, Decision (Q x)} (l : list A) :
  (∀ x, x ∈ l → (P x ↔ Q x)) → filter P l = filter Q l.
Proof.
  induction l as [|x l IH]; intros Hiff; [done|].
  rewrite !filter_cons, IH by (intros y Hy; apply Hiff; by right).
  pose proof (Hiff x (list_elem_of_here x l)) as Hx.
  destruct (decide (P x)), (decide (Q x)); tauto || done.
Qed.

(** X8. The multiselect offers every country of the table exactly once, in
    the order of first appearance, and starts with the first five of them
    selected (all of them when there are fewer). *)
Theorem country_options_distinct_in_order (df : list Row) :
  NoDup (country_options df)
  ∧ (∀ c, c ∈ country_options df ↔ ∃ r, r ∈ df ∧ Country r = c)
  ∧ country_options df = first_seen (Country <$> df)
  ∧ default_countries df = take 5 (first_seen (Country <$> df))
  ∧ default_countries df ⊆ country_options df
  ∧ NoDup (default_countries df)
  ∧ length (default_countries df) = 5 `min` length (country_options df).
Proof.
  unfold default_countries, country_options. rewrite unique_first_seen.
  split_and!; try done.
  - apply NoDup_first_seen.
  - intros c. rewrite elem_of_first_seen, list_elem_of_fmap. split.
    + intros (r & -> & Hr). by exists r.
    + intros (r & Hr & <-). by exists r.
  - apply subseteq_take.
  - eapply sublist_NoDup; [apply NoDup_first_seen|apply sublist_take].
  - apply length_take.
Qed.

(** X9. With every option of the multiselect selected the country test
    lets every row through: the view is the table filtered by the threshold
    alone. *)
Theorem all_countries_selected_filters_by_threshold (df : list Row)
    (min_production : Z) :
  filtered_df df min_production (country_options df)
  = filter (λ r, of_int min_production ≼ Total_Production_TBq r) df.
Proof.
  rewrite filtered_df_filter. apply filter_iff_in. intros r Hr.
  unfold passes, country_options.
  rewrite unique_first_seen, elem_of_first_seen, list_elem_of_fmap.
  split; [by intros [? _]|]. intros Hle. split; [done|]. by exists r.
Qed.

(** ** Moving the widgets *)

Lemma passes_narrower m m' sel sel' r :
  (m ≤ m')%Z → sel' ⊆ sel → passes m' sel' r → passes m sel r.
Proof.
  intros Hm Hsel [Hle Hin]. split; [|by apply Hsel].
  eapply float_le_trans; [|exact Hle]. by apply of_int_le.
Qed.

(** X10. Raising the threshold or deselecting countries only removes rows:
    the new view is the old view with rows left out, in the same order, and
    it is what the filter gives on the old view. *)
Theorem narrower_filter_removes_rows (df : list Row) (m m' : Z)
    (sel sel' : list string) :
  (m ≤ m')%Z → sel' ⊆ sel →
  filtered_df df m' sel' `sublist_of` filtered_df df m sel
  ∧ filtered_df df m' sel' = filtered_df (filtered_df df m sel) m' sel'.
Proof.
  intros Hm Hsel.
  assert (filtered_df df m' sel' = filtered_df (filtered_df df m sel) m' sel')
    as E.
  { rewrite !filtered_df_filter, list_filter_filter.
    apply filter_iff_in. intros r _. split; [|by intros [? _]].
    intros Hp. split; [done|]. by eapply passes_narrower. }
  split; [|done]. rewrite E, (filtered_df_filter (filtered_df df m sel)).
  apply sublist_filter.
Qed.

Lemma narrower_filter_removes_rows_sample :
  let df := clean false decimal_to_float sample_csv in
  Country <$> filtered_df df 100 ["Belgium"; "India"; "Japan"]
    = ["Belgium"; "India"; "Japan"]
  ∧ Country <$> filtered_df df 1600 ["Belgium"; "Japan"] = ["Belgium"; "Japan"]
  ∧ filtered_df df 1600 ["Belgium"; "Japan"]
    `sublist_of` filtered_df df 100 ["Belgium"; "India"; "Japan"].
Proof.
  split_and!; [vm_compute; reflexivity..|].
  apply (narrower_filter_removes_rows (clean false decimal_to_float sample_csv)
           100 1600 ["Belgium"; "India"; "Japan"] ["Belgium"; "Japan"]).
  - lia.
  - intros c Hc. apply elem_of_cons in Hc as [->|Hc]; [by left|].
    apply elem_of_cons in Hc as [->|Hc]; [by do 2 right; left|].
    by apply elem_of_nil in Hc.
Defined.
(** ** The run of the script *)

Lemma clean_nil_iff copy_on_write str_to_float (csv : list RawRow) :
  clean copy_on_write str_to_float csv = [] ↔ csv = [].
Proof. unfold clean. split; [apply fmap_nil_inv|by intros ->]. Qed.

Lemma clean_filled str_to_float (csv : list RawRow) :
  Forall (λ r, Total_Production_TBq r ≠ nan) (clean false str_to_float csv).
Proof.
  unfold clean. apply Forall_fmap, Forall_forall. intros raw _.
  unfold compose. rewrite clean_row_production.
  unfold chained_inplace, fillna.
  by destruct (to_numeric str_to_float (raw_Total_Production_TBq raw)).
Qed.

Lemma slider_max_all_nan (df : list Row) :
  Forall (λ r, Total_Production_TBq r = nan) df →
  slider_max df = Raise ValueError.
Proof.
  intros H. apply slider_max_Raise, series_max_nan. by apply Forall_fmap.
Qed.

Lemma slider_max_pinf (df : list Row) (r : Row) :
  r ∈ df → Total_Production_TBq r = pinf →
  slider_max df = Raise OverflowError.
Proof.
  intros Hr Hv. apply slider_max_Raise. left. apply series_max_pinf.
  apply list_elem_of_fmap. by exists r.
Qed.

(** X11. With an uploaded file the script reads it into [df] and does
    nothing more: no cleaning, no filter, no chart.  Without one it works on
    the table at the fixed path, and line 130 decides how it goes on.  When
    no production of the cleaned table is a number (the table has no rows,
    or every production is NaN), [int] raises a ValueError; without
    copy-on-write the cleaned table has no NaN, so that this happens for
    the table without rows only.  When a production is plus infinity, or
    the largest is minus infinity, [int] raises an OverflowError.
    Otherwise the largest production is a number, the slider is asked for
    a value of the range from 0 to [slider_max] with the start value 100,
    and the script ends with what the slider raises or computes the tables
    of the dashboard for the threshold the slider returns and the
    countries the multiselect returns. *)
Theorem script_outcome (copy_on_write : bool)
    (str_to_float : string → float64) (kind counts_kind : SortKind)
    (slider : Z → Z → Z → py_result Z)
    (multiselect : list string → list string → list string)
    (path_csv : list RawRow) :
  let run :=
    script copy_on_write str_to_float kind counts_kind slider multiselect in
  let df := clean copy_on_write str_to_float path_csv in
  let largest := series_max (Total_Production_TBq <$> df) in
  (∀ uploaded, run (Some uploaded) path_csv = UploadOnly uploaded)
  ∧ (Forall (λ r, Total_Production_TBq r = nan) df →
     run None path_csv = Raised ValueError)
  ∧ (copy_on_write = false →
     (Forall (λ r, Total_Production_TBq r = nan) df ↔ path_csv = []))
  ∧ ((∃ r, r ∈ df ∧ Total_Production_TBq r = pinf) →
     run None path_csv = Raised OverflowError)
  ∧ (largest = ninf → run None path_csv = Raised OverflowError)
  ∧ (largest = nan ∨ largest = pinf ∨ largest = ninf ∨ ∃ q, largest = fin q)
  ∧ (∀ q, largest = fin q →
     let hi := (Z.quot (Qnum q) (Zpos (Qden q)) + 1000)%Z in
     let selected := multiselect (country_options df) (default_countries df) in
     slider_max df = Ok hi
     ∧ (∀ e, slider 0%Z hi 100%Z = Raise e → run None path_csv = Raised e)
     ∧ (∀ m, slider 0%Z hi 100%Z = Ok m →
        run None path_csv
        = Computed m selected
            (dashboard copy_on_write str_to_float kind counts_kind path_csv m
               selected))).
Proof.
  simpl. unfold script. split_and!.
  - done.
  - intros H. by rewrite (slider_max_all_nan _ H).
  - intros ->. split.
    + intros H. destruct path_csv as [|raw csv]; [done|].
      pose proof (clean_filled str_to_float (raw :: csv)) as Hf.
      apply Forall_inv in H. apply Forall_inv in Hf. done.
    + by intros ->.
  - intros (r & Hr & Hv). by rewrite (slider_max_pinf _ r Hr Hv).
  - intros H.
    assert (slider_max (clean copy_on_write str_to_float path_csv)
            = Raise OverflowError) as ->; [|done].
    apply slider_max_Raise. by right.
  - destruct (series_max _) as [| | |q]; eauto.
  - intros q Hq.
    assert (slider_max (clean copy_on_write str_to_float path_csv)
            = Ok (Z.quot (Qnum q) (Zpos (Qden q)) + 1000)%Z) as E.
    { apply slider_max_Ok. by exists q. }
    rewrite E. split_and!; [done| |].
    + by intros e ->.
    + by intros m ->.
Qed.

Lemma elem_of_isotope_matrix (view : list Row) (e : Entry) :
  e ∈ isotope_matrix view →
  ∃ row, row ∈ view ∧ entry_Isotope e ∈ Isotope_List row
         ∧ entry_Country e = Country row
         ∧ entry_Production e = Total_Production_TBq row.
Proof.
  rewrite isotope_matrix_bind, list_elem_of_bind. unfold entries_of.
  intros (row & He & Hrow). apply list_elem_of_fmap in He as (i & -> & Hi).
  by exists row.
Qed.

Lemma elem_of_top_countries kind (view : list Row) (r : Row) :
  r ∈ top_countries kind view → r ∈ view.
Proof.
  unfold top_countries, head10. intros H%subseteq_take.
  by rewrite sort_values_desc_perm in H.
Qed.

(** X12. A slider whose start value lies in its range returns a value of
    that range, and the range of line 127 starts at 0.  So when the cleaned
    table has a row whose production is not negative and no row whose
    production is plus infinity, line 130 raises nothing, the start value
    100 lies in the range of the slider, and once the slider has returned
    the script computes its tables: the threshold is not negative, and no
    negative production and no NaN reaches the ranking, the pie chart or
    the treemap, although cleaning lets negative values through. *)
Theorem script_shows_no_negative_production (copy_on_write : bool)
    (str_to_float : string → float64) (kind counts_kind : SortKind)
    (slider : Z → Z → Z → py_result Z)
    (multiselect : list string → list string → list string)
    (path_csv : list RawRow) (r : Row) :
  slider_in_range slider →
  r ∈ clean copy_on_write str_to_float path_csv →
  fin 0 ≼ Total_Production_TBq r →
  Forall (λ row, Total_Production_TBq row ≠ pinf)
    (clean copy_on_write str_to_float path_csv) →
  ∃ hi,
    slider_max (clean copy_on_write str_to_float path_csv) = Ok hi
    ∧ (0 ≤ 100 ≤ hi)%Z
    ∧ ∀ m, slider 0%Z hi 100%Z = Ok m →
        ∃ sel d,
          script copy_on_write str_to_float kind counts_kind slider
            multiselect None path_csv = Computed m sel d
          ∧ (0 ≤ m)%Z
          ∧ Forall (λ row, fin 0 ≼ Total_Production_TBq row)
              (out_filtered_df d)
          ∧ Forall (λ row, fin 0 ≼ Total_Production_TBq row)
              (out_top_countries d)
          ∧ Forall (λ v, fin 0 ≼ v) (out_pie_values d)
          ∧ Forall (λ e, fin 0 ≼ entry_Production e) (out_isotope_matrix d).
Proof.
  intros Hslider Hr Hpos Hfin.
  destruct (slider_max_nonneg _ r Hr Hpos Hfin) as (hi & E & Hhi).
  exists hi. split_and!; [done|lia..|].
  intros m Hm.
  assert (0 ≤ m)%Z as Hm0.
  { destruct (Hslider 0%Z hi 100%Z m); [lia|done|done]. }
  unfold script. rewrite E, Hm. do 2 eexists. split; [done|].
  assert (∀ row,
            row ∈ filtered_df (clean copy_on_write str_to_float path_csv) m
                    (multiselect
                       (country_options
                          (clean copy_on_write str_to_float path_csv))
                       (default_countries
                          (clean copy_on_write str_to_float path_csv))) →
            fin 0 ≼ Total_Production_TBq row) as Hview.
  { intros row [_ [Hle _]]%elem_of_filtered_df.
    eapply float_le_trans; [|exact Hle].
    by apply (of_int_le 0 m). }
  cbn [out_filtered_df out_top_countries out_pie_values out_isotope_matrix
       dashboard].
  split_and!; [done|..].
  - by apply Forall_forall.
  - apply Forall_forall. intros row Hrow%elem_of_top_countries. by apply Hview.
  - apply Forall_fmap, Forall_forall. intros row Hrow. by apply Hview.
  - apply Forall_forall.
    intros e (row & Hrow & _ & _ & ->)%elem_of_isotope_matrix.
    by apply Hview.
Qed.

Lemma script_shows_no_negative_production_untouched :
  slider_in_range untouched_slider
  ∧ ∃ hi,
      slider_max (clean false decimal_to_float sample_csv) = Ok hi
      ∧ (0 ≤ 100 ≤ hi)%Z
      ∧ ∀ m, untouched_slider 0%Z hi 100%Z = Ok m →
          ∃ sel d,
            script false decimal_to_float np_kind np_kind untouched_slider
              untouched_multiselect None sample_csv = Computed m sel d
            ∧ (0 ≤ m)%Z
            ∧ Forall (λ row, fin 0 ≼ Total_Production_TBq row)
                (out_filtered_df d)
            ∧ Forall (λ row, fin 0 ≼ Total_Production_TBq row)
                (out_top_countries d)
            ∧ Forall (λ v, fin 0 ≼ v) (out_pie_values d)
            ∧ Forall (λ e, fin 0 ≼ entry_Production e)
                (out_isotope_matrix d).
Proof.
  split; [intros lo hi v m H [= <-]; exact H|].
  apply (script_shows_no_negative_production false decimal_to_float
           np_kind np_kind untouched_slider untouched_multiselect sample_csv
           (clean_row false decimal_to_float
              (mkRawRow "Belgium" (Str "Mo-99, I-131") (Str "2000")))).
  - intros lo hi v m H [= <-]. exact H.
  - vm_compute. left.
  - vm_compute. reflexivity.
  - vm_compute. repeat constructor; discriminate.
Defined.

(** ** The ranking chart *)

(** X16. The bar chart of the top producing countries shows ten rows of the
    filtered view, or all of them when the view has fewer.  Every row shown
    passed the filter, so its production is a number at or above the
    threshold; the bars come with the production never increasing; and no
    row of the view that is left out has a production above that of a row
    shown.  This holds for every kind of sort and with or without
    copy-on-write. *)
Theorem top_countries_chart (copy_on_write : bool)
    (str_to_float : string → float64) (kind counts_kind : SortKind)
    (csv : list RawRow) (min_production : Z)
    (selected_countries : list string) :
  let d := dashboard copy_on_write str_to_float kind counts_kind csv
             min_production selected_countries in
  let view := out_filtered_df d in
  let top := out_top_countries d in
  length top = 10 `min` length view
  ∧ top ⊆+ view
  ∧ (∀ r, r ∈ top →
       r ∈ clean copy_on_write str_to_float csv
       ∧ of_int min_production ≼ Total_Production_TBq r
       ∧ Country r ∈ selected_countries)
  ∧ StronglySorted
      (λ x y, Total_Production_TBq y ≼ Total_Production_TBq x) top
  ∧ (∀ x y, x ∈ top → y ∈ view → y ∉ top →
       Total_Production_TBq y ≼ Total_Production_TBq x).
Proof.
  cbn [dashboard out_filtered_df out_top_countries].
  set (view := filtered_df (clean copy_on_write str_to_float csv)
                 min_production selected_countries).
  assert (Forall (λ r, is_nan (Total_Production_TBq r) = false) view) as Hnum.
  { apply Forall_forall. intros r [_ [Hle _]]%elem_of_filtered_df.
    by apply float_le_not_nan in Hle as [_ ?]. }
  pose proof (sort_values_desc_perm kind view) as Hp.
  pose proof (sort_values_desc_sorted kind view) as Hs.
  simpl. unfold top_countries, head10. split_and!.
  - by rewrite length_take, Hp.
  - trans (sort_values_desc kind view);
      [apply sublist_submseteq, sublist_take|by apply Permutation_submseteq].
  - intros r Hr%subseteq_take. rewrite Hp in Hr.
    apply elem_of_filtered_df in Hr as [Hr [Hle Hsel]]. done.
  - apply StronglySorted_take. by apply sort_values_desc_sorted_numbers.
  - intros x y Hx Hy HnY.
    assert (y ∈ sort_values_desc kind view) as Hy'; [by rewrite Hp|].
    rewrite <-(take_drop 10 (sort_values_desc kind view)) in Hy', Hs.
    apply elem_of_app in Hy' as [Hy'|Hy']; [done|].
    apply by_production_desc_le.
    + rewrite Forall_forall in Hnum. by apply Hnum.
    + by apply (StronglySorted_app_1_elem_of _ _ _ x y) in Hs.
Qed.

(** ** The two isotope charts *)

Lemma isotope_counts_tally kind (df : list Row) :
  isotope_counts kind df ≡ₚ tally (all_isotopes df).
Proof. apply arrange_perm. Qed.

Lemma isotope_counts_sorted kind (df : list Row) :
  StronglySorted (λ a b, (b.2 ≤ a.2)%nat) (isotope_counts kind df).
Proof.
  eapply StronglySorted_impl;
    [|apply arrange_sorted;
      [apply by_count_desc_total|apply by_count_desc_trans]].
  intros x y. apply Nat.leb_le.
Qed.

(** X13. The bar chart of the most common isotopes shows ten isotopes, or
    all of them when fewer occur.  Each bar is one isotope with the number
    of its occurrences in the table, no isotope has two bars, and no isotope
    left out occurs more often than an isotope shown. *)
Theorem isotope_chart_most_common (kind : SortKind) (df : list Row) :
  let chart := isotope_chart kind df in
  let values := all_isotopes df in
  length chart = 10 `min` length (first_seen values)
  ∧ NoDup chart.*1
  ∧ (∀ X n, (X, n) ∈ chart → n = occurrences X values ∧ (0 < n)%nat)
  ∧ (∀ X n Y, (X, n) ∈ chart → Y ∈ values → Y ∉ chart.*1 →
              (occurrences Y values ≤ n)%nat).
Proof.
  simpl. unfold isotope_chart.
  pose proof (isotope_counts_tally kind df) as Hp.
  pose proof (isotope_counts_sorted kind df) as Hs.
  split_and!.
  - rewrite length_take, Hp, <-(length_fmap fst), tally_keys. done.
  - rewrite fmap_take. eapply sublist_NoDup; [|apply sublist_take].
    rewrite Hp, tally_keys. apply NoDup_first_seen.
  - intros X n H%subseteq_take. rewrite Hp in H. by apply elem_of_tally.
  - intros X n Y HX HY HnY.
    assert ((Y, occurrences Y (all_isotopes df)) ∈ isotope_counts kind df) as Hin.
    { rewrite Hp. apply elem_of_tally. split; [done|]. by apply occurrences_pos. }
    rewrite <-(take_drop 10 (isotope_counts kind df)) in Hin, Hs.
    apply elem_of_app in Hin as [Hin|Hin].
    + exfalso. apply HnY. apply list_elem_of_fmap. by eexists (_, _).
    + by apply (StronglySorted_app_1_elem_of _ _ _ _ _ Hs HX) in Hin.
Qed.

Lemma occurrences_entries X (row : Row) :
  length (filter (λ e, entry_Isotope e = X) (entries_of row))
  = occurrences X (Isotope_List row).
Proof.
  unfold entries_of, occurrences.
  induction (Isotope_List row) as [|i l IH]; [done|].
  rewrite fmap_cons, !filter_cons. cbn [entry_Isotope].
  destruct (decide (i = X)); simpl; by rewrite IH.
Qed.

Lemma occurrences_matrix X (view : list Row) :
  length (filter (λ e, entry_Isotope e = X) (isotope_matrix view))
  = occurrences X (all_isotopes view).
Proof.
  rewrite isotope_matrix_bind, all_isotopes_bind.
  induction view as [|row view IH]; [done|].
  rewrite !bind_cons, filter_app, length_app, occurrences_app, IH.
  by rewrite occurrences_entries.
Qed.

Lemma occurrences_filter_le X (P : Row → Prop) `{∀ r, Decision (P r)}
    (df : list Row) :
  (occurrences X (filter P df ≫= Isotope_List)
   ≤ occurrences X (df ≫= Isotope_List))%nat.
Proof.
  induction df as [|r df IH]; [done|].
  rewrite filter_cons, bind_cons, occurrences_app.
  destruct (decide (P r)); [rewrite bind_cons, occurrences_app|]; lia.
Qed.

(** X14. The treemap never shows more of an isotope than the frequency
    table counts: the entries of the matrix for an isotope are as many as
    its occurrences in the filtered view, at most its occurrences in the
    whole table, and an isotope with an entry has a line in the frequency
    table. *)
Theorem treemap_entries_within_frequency (kind : SortKind) (df : list Row)
    (min_production : Z) (selected_countries : list string) (X : string) :
  let view := filtered_df df min_production selected_countries in
  let k := length (filter (λ e, entry_Isotope e = X) (isotope_matrix view)) in
  k = occurrences X (all_isotopes view)
  ∧ (k ≤ occurrences X (all_isotopes df))%nat
  ∧ ((0 < k)%nat →
     (X, occurrences X (all_isotopes df)) ∈ isotope_counts kind df).
Proof.
  simpl. rewrite occurrences_matrix.
  assert (occurrences X
            (all_isotopes (filtered_df df min_production selected_countries))
          ≤ occurrences X (all_isotopes df))%nat as Hle.
  { rewrite !all_isotopes_bind, filtered_df_filter.
    apply occurrences_filter_le. }
  split_and!; [done..|].
  intros Hk. rewrite isotope_counts_tally. apply elem_of_tally. lia.
Qed.

(** ** The map *)

Lemma latitude_of_bounds x : - (90) <= latitude_of x ∧ latitude_of x <= 90.
Proof.
  destruct (COUNTRY_COORDS !! x) as [d|] eqn:E.
  - rewrite (latitude_of_known _ _ E).
    by apply (map_Forall_lookup_1 _ _ _ _ COUNTRY_COORDS_points_ok) in E
      as (Hlat & _).
  - rewrite (latitude_of_unknown _ E). split; discriminate.
Qed.

Lemma longitude_of_bounds x : - (180) <= longitude_of x ∧ longitude_of x <= 180.
Proof.
  destruct (COUNTRY_COORDS !! x) as [d|] eqn:E.
  - rewrite (longitude_of_known _ _ E).
    by apply (map_Forall_lookup_1 _ _ _ _ COUNTRY_COORDS_points_ok) in E
      as (_ & Hlon & _).
  - rewrite (longitude_of_unknown _ E). split; discriminate.
Qed.

Lemma sum_bounds (a b : Q) (col : list Q) :
  Forall (λ v, a <= v ∧ v <= b) col →
  a * inject_Z (Z.of_nat (length col)) <= foldr Qplus 0 col
  ∧ foldr Qplus 0 col <= b * inject_Z (Z.of_nat (length col)).
Proof.
  induction 1 as [|v col [Ha Hb] _ [IHa IHb]]; simpl foldr.
  - change (inject_Z (Z.of_nat (length (@nil Q)))) with 0.
    rewrite !Qmult_0_r. split; apply Qle_refl.
  - cbn [length]. rewrite Nat2Z.inj_succ, <-Z.add_1_r, inject_Z_plus.
    change (inject_Z 1) with 1. split; lra.
Qed.

Lemma series_mean_bounds (a b : Q) (col : list Q) :
  col ≠ [] → Forall (λ v, a <= v ∧ v <= b) col →
  a <= series_mean col ∧ series_mean col <= b.
Proof.
  intros Hne HF. destruct (sum_bounds a b col HF) as [Ha Hb].
  assert (0 < inject_Z (Z.of_nat (length col))) as Hn.
  { rewrite <-(Zlt_Qlt 0). destruct col; [done|]. simpl. lia. }
  unfold series_mean. split.
  - by apply Qle_shift_div_l.
  - by apply Qle_shift_div_r.
Qed.

(** X15. The map is always centred on a point of the globe: for a view
    that is not empty the centre is the mean of the rows' coordinates, with
    a latitude between -90 and 90 and a longitude between -180 and 180, and
    for the empty view it is the point (0, 0); nothing is divided by the
    number of rows of an empty view. *)
Theorem viewport_on_the_globe (copy_on_write : bool)
    (str_to_float : string → float64)
    (csv : list RawRow) (min_production : Z)
    (selected_countries : list string) :
  let view :=
    filtered_df (clean copy_on_write str_to_float csv) min_production
      selected_countries in
  (- (90) <= (viewport view).1 ∧ (viewport view).1 <= 90)
  ∧ (- (180) <= (viewport view).2 ∧ (viewport view).2 <= 180)
  ∧ (view = [] → viewport view = (0, 0))
  ∧ (view ≠ [] →
     viewport view
     = (series_mean (Latitude <$> view), series_mean (Longitude <$> view))).
Proof.
  simpl.
  set (view := filtered_df (clean copy_on_write str_to_float csv)
                 min_production selected_countries).
  assert (∀ r, r ∈ view → r ∈ clean copy_on_write str_to_float csv) as Hclean.
  { intros r Hr. by apply elem_of_filtered_df in Hr as [? _]. }
  clearbody view. unfold viewport.
  destruct view as [|r view]; simpl is_empty; cbn [negb fst snd].
  { repeat split; (done || discriminate). }
  split; [|split; [|split; [done|done]]].
  - apply series_mean_bounds; [done|].
    apply Forall_fmap, Forall_forall. intros x Hx.
    apply Hclean, elem_of_clean in Hx as (_ & Hlat & _).
    simpl. rewrite Hlat. apply latitude_of_bounds.
  - apply series_mean_bounds; [done|].
    apply Forall_fmap, Forall_forall. intros x Hx.
    apply Hclean, elem_of_clean in Hx as (_ & _ & Hlon & _).
    simpl. rewrite Hlon. apply longitude_of_bounds.
Qed.

